(** * aws-athena-mcp: query admission, execution and result retrieval

    A shallow embedding of [AWSResourceQuerier.execute_athena_query] and
    [AWSResourceQuerier.get_athena_query_results]
    (src/mcp_server_aws_resources/server.py), and the properties of the
    validation gate, the poll loop and the result normalisation. *)

From Stdlib Require Import String Ascii.
From Stdlib Require Import List Bool Arith ZArith NArith Lia.
Import ListNotations.

(** ** Python text

    A Python [str] is a sequence of Unicode code points. *)

Definition char := N.
Definition str := list char.

(** A string literal of the source. *)
Definition lit (s : string) : str := map N_of_ascii (list_ascii_of_string s).

(** [a == b] *)
Fixpoint str_eqb (a b : str) : bool :=
  match a, b with
  | [], [] => true
  | x :: a', y :: b' => (x =? y)%N && str_eqb a' b'
  | _, _ => false
  end.

(** The three character tables of CPython on the ASCII range. *)

(** [_Py_ascii_whitespace]: TAB, LF, VT, FF, CR, FS, GS, RS, US, SPACE. *)
Definition ascii_isspace (c : char) : bool :=
  ((9 <=? c) && (c <=? 13) || (28 <=? c) && (c <=? 32))%N.

Definition ascii_toupper (c : char) : char :=
  if ((97 <=? c) && (c <=? 122))%N then (c - 32)%N else c.

(** [\w] on ASCII: letters, digits and the underscore. *)
Definition ascii_isword (c : char) : bool :=
  ((48 <=? c) && (c <=? 57) || (65 <=? c) && (c <=? 90)
   || (c =? 95) || (97 <=? c) && (c <=? 122))%N.

(** The Unicode database the interpreter consults: [str.strip] removes the
    characters of [isspace], [str.upper] maps each character through its full
    upper-case mapping (one character may become several), and [\b] of the
    [re] module is decided by [isword].  Whatever the tables say above the
    ASCII range, on it they are the three tables above. *)
Class PyUnicode := {
  isspace : char -> bool;
  toupper : char -> str;
  isword : char -> bool;
  isspace_ascii : forall c, (c < 128)%N -> isspace c = ascii_isspace c;
  toupper_ascii : forall c, (c < 128)%N -> toupper c = [ascii_toupper c];
  isword_ascii : forall c, (c < 128)%N -> isword c = ascii_isword c
}.

Section Text.
Context {U : PyUnicode}.

(** [s.startswith(p)] *)
Fixpoint startswith (s p : str) {struct p} : bool :=
  match p, s with
  | [], _ => true
  | _ :: _, [] => false
  | b :: p', a :: s' => (a =? b)%N && startswith s' p'
  end.

Fixpoint lstrip (s : str) : str :=
  match s with
  | [] => []
  | c :: s' => if isspace c then lstrip s' else s
  end.

Definition rstrip (s : str) : str := rev (lstrip (rev s)).

(** [s.strip()] *)
Definition strip (s : str) : str := rstrip (lstrip s).

(** [s.upper()] *)
Definition upper (s : str) : str := flat_map toupper s.

(** *** [re.search(r'\b' + keyword + r'\b', text)]

    The keywords are plain letters, so the pattern is the literal keyword
    between two [\b] assertions.  [\b] holds at a position when exactly one of
    the characters on its two sides is a word character, the outside of the
    text counting as a non-word character. *)

Definition word_at (text : str) (i : nat) : bool :=
  match nth_error text i with
  | Some c => isword c
  | None => false
  end.

Definition at_boundary (text : str) (i : nat) : bool :=
  xorb (match i with O => false | S j => word_at text j end) (word_at text i).

Definition match_at (keyword text : str) (i : nat) : bool :=
  at_boundary text i
  && startswith (skipn i text) keyword
  && at_boundary text (i + length keyword).

Definition re_search_word (keyword text : str) : bool :=
  existsb (match_at keyword text) (seq 0 (S (length text))).

End Text.

(** The tables used to run the model on ASCII text: CPython's on the ASCII
    range, and no whitespace, no case and no word character above it. *)
#[export] Instance ascii_unicode : PyUnicode := {|
  isspace := ascii_isspace;
  toupper := fun c => [ascii_toupper c];
  isword := ascii_isword;
  isspace_ascii := fun _ _ => eq_refl;
  toupper_ascii := fun _ _ => eq_refl;
  isword_ascii := fun _ _ => eq_refl
|}.

(** ** Values and dictionaries

    A [dict] keeps its keys in insertion order; assigning to a key that is
    present replaces its value in place. *)

Definition dict (V : Type) := list (str * V).

Fixpoint dict_get {V} (d : dict V) (k : str) : option V :=
  match d with
  | [] => None
  | (k', v) :: d' => if str_eqb k' k then Some v else dict_get d' k
  end.

(** [d[k] = v] *)
Fixpoint dict_set {V} (d : dict V) (k : str) (v : V) : dict V :=
  match d with
  | [] => [(k, v)]
  | (k', v') :: d' =>
      if str_eqb k' k then (k', v) :: d' else (k', v') :: dict_set d' k v
  end.

(** [k in d] *)
Definition dict_mem {V} (d : dict V) (k : str) : bool :=
  match dict_get d k with Some _ => true | None => false end.

(** [d[k] = v] for a pair [(k, v)] *)
Definition bind_pair {V} (d : dict V) (kv : str * V) : dict V :=
  dict_set d (fst kv) (snd kv).

(** [dict(pairs)] *)
Definition dict_of {V} (pairs : list (str * V)) : dict V :=
  fold_left bind_pair pairs [].

(** ** The engine's wire shapes

    The responses of the Athena client, as botocore parses them: no member
    of a response is required, so every member is optional.  The code reads
    some members with [in] or [.get] and indexes the others; indexing a
    member that is absent raises [KeyError] (see [getitem] below).  [Type_]
    stands for the key [Type]. *)

Record datum := { VarCharValue : option str }.

Record row := { Data : option (list datum) }.

Record column_info := { Name : option str; Type_ : option str }.

Record result_set_metadata := { ColumnInfo : option (list column_info) }.

Record result_set := {
  Rows : option (list row);
  ResultSetMetadata : option result_set_metadata
}.

Record get_query_results_output := { ResultSet : option result_set }.

Record start_query_execution_output := { QueryExecutionId : option str }.

(** What ends up in a returned dictionary, and is serialised to JSON by the
    tool handler. *)
#[warnings="-register-all"]
Inductive pyval :=
| PStr (s : str)
| PInt (n : Z)
| PList (l : list pyval)
| PDict (d : list (str * pyval))
| PResults (r : get_query_results_output).

Record query_execution_status := {
  State : option str;
  StateChangeReason : option str
}.

Record result_configuration := { OutputLocation : option str }.

Record query_execution := {
  Status : option query_execution_status;
  Statistics : option pyval;
  ResultConfiguration : option result_configuration
}.

Record get_query_execution_output := { QueryExecution : option query_execution }.

(** ** Effects

    An engine call either answers or raises an exception, of which the code
    only ever uses [str(e)]. *)

Inductive outcome (A : Type) :=
| Ok (a : A)
| Raise (message : str).

Arguments Ok {A} a.
Arguments Raise {A} message.

(** Sequencing of steps that may raise. *)
Definition and_then {A B} (o : outcome A) (k : A -> outcome B) : outcome B :=
  match o with
  | Ok a => k a
  | Raise message => Raise message
  end.

(** [str(KeyError(key))]: the key in single quotes. *)
Definition key_error (key : string) : str := lit "'" ++ lit key ++ lit "'".

(** [d[key]], for a member of a response. *)
Definition getitem {A} (member : option A) (key : string) : outcome A :=
  match member with
  | Some a => Ok a
  | None => Raise (key_error key)
  end.

(** [status_response['QueryExecution']['Status']['State']] *)
Definition get_state (status_response : get_query_execution_output)
  : outcome str :=
  and_then (getitem (QueryExecution status_response) "QueryExecution")
    (fun query_execution =>
       and_then (getitem (Status query_execution) "Status")
         (fun status => getitem (State status) "State")).

(** What the process does to the outside, with the answer it got. *)
Inductive event :=
| Client (r : outcome unit)
| StartQueryExecution (query_string workgroup output_location : str)
    (r : outcome start_query_execution_output)
| GetQueryExecution (query_execution_id : str)
    (r : outcome get_query_execution_output)
| GetQueryResults (query_execution_id : str) (max_results : option Z)
    (r : outcome get_query_results_output)
| Sleep (seconds : Z).

(** The server's defaults ([self.athena_workgroup],
    [self.athena_output_location]). *)
Record querier := {
  athena_workgroup : str;
  athena_output_location : str
}.

(** ** The validation gate

    Lines 117-143 of [execute_athena_query]; the tests call this block
    [validate_query].  [None] admits the query, [Some d] is the dictionary
    the function returns in its place. *)

Definition error_outcome (message : str) : dict pyval :=
  [(lit "error", PStr message)].

Definition disallowed_keywords : list str :=
  map lit ["INSERT"; "UPDATE"; "DELETE"; "DROP"; "ALTER"; "CREATE";
           "TRUNCATE"; "MERGE"; "GRANT"; "REVOKE"; "VACUUM"]%string.

Definition prefix_restriction : str :=
  lit "Security restriction: Only SELECT, SHOW, DESCRIBE, and EXPLAIN queries are allowed".

Definition keyword_restriction (keyword : str) : str :=
  lit "Security restriction: Query contains disallowed keyword: " ++ keyword.

Definition allowed_prefix (normalized_query : str) : bool :=
  startswith normalized_query (lit "SELECT ")
  || startswith normalized_query (lit "WITH ")
  || startswith normalized_query (lit "SHOW ")
  || startswith normalized_query (lit "DESCRIBE ")
  || str_eqb normalized_query (lit "SHOW DATABASES")
  || startswith normalized_query (lit "EXPLAIN ").

Section Validator.
Context {U : PyUnicode}.

Definition normalize (query_string : str) : str :=
  upper (strip query_string).

Definition validate_query (query_string : str) : option (dict pyval) :=
  let normalized_query := normalize query_string in
  if negb (allowed_prefix normalized_query) then
    Some (error_outcome prefix_restriction)
  else
    match find (fun keyword => re_search_word keyword normalized_query)
               disallowed_keywords with
    | Some keyword => Some (error_outcome (keyword_restriction keyword))
    | None => None
    end.

End Validator.

(** ** Result normalisation

    Lines 237-266 of [get_athena_query_results]. *)

(** An entry of the processed [column_info] list: a dictionary with exactly
    the keys [Name] and [Type]. *)
Record column := { col_Name : str; col_Type : str }.

Definition get_default (o : option str) (default : str) : str :=
  match o with Some s => s | None => default end.

Definition process_columns (results_response : get_query_results_output)
  : list column :=
  match ResultSet results_response with
  | Some rs =>
      match ResultSetMetadata rs with
      | Some meta =>
          map (fun col => {| col_Name := get_default (Name col) [];
                             col_Type := get_default (Type_ col) [] |})
              (match ColumnInfo meta with Some cols => cols | None => [] end)
      | None => []
      end
  | None => []
  end.

(** [enumerate(l)] *)
Definition enumerate {A} (l : list A) : list (nat * A) :=
  combine (seq 0 (length l)) l.

(** The body of the loop over the rows, for one row that is not skipped.
    Each turn of the loop over the columns indexes [row['Data']], which
    raises when the row has no data array; [nth_error] answers exactly when
    [i < len(row['Data'])]. *)
Definition build_row (column_info : list column) (r : row)
  : outcome (dict str) :=
  fold_left
    (fun acc ic =>
       and_then acc (fun data =>
       and_then (getitem (Data r) "Data") (fun cells =>
         match nth_error cells (fst ic) with
         | Some cell =>
             Ok (dict_set data (col_Name (snd ic))
                   (get_default (VarCharValue cell) []))
         | None => Ok data
         end)))
    (enumerate column_info) (Ok []).

(** The loop over the rows, with its [header_processed] flag. *)
Definition rows_loop (column_info : list column) (raw : list row)
  : outcome (bool * list (dict str)) :=
  fold_left
    (fun acc r =>
       and_then acc (fun st =>
         let '(header_processed, rows) := st in
         if negb header_processed then Ok (true, rows)
         else
           and_then (build_row column_info r) (fun data =>
             Ok (header_processed, rows ++ [data]))))
    raw (Ok (false, [])).

Definition process_rows (results_response : get_query_results_output)
    (column_info : list column) : outcome (list (dict str)) :=
  match ResultSet results_response with
  | Some rs =>
      match Rows rs with
      | Some raw => and_then (rows_loop column_info raw) (fun st => Ok (snd st))
      | None => Ok []
      end
  | None => Ok []
  end.

Definition column_value (c : column) : pyval :=
  PDict [(lit "Name", PStr (col_Name c)); (lit "Type", PStr (col_Type c))].

Definition row_value (data : dict str) : pyval :=
  PDict (map (fun kv => (fst kv, PStr (snd kv))) data).

(** ** The coordinator *)

Definition max_retries : Z := 100.

(** [status in ['QUEUED', 'RUNNING']] *)
Definition in_progress (status : str) : bool :=
  str_eqb status (lit "QUEUED") || str_eqb status (lit "RUNNING").

(** [x or default], for an optional string argument: [None] and the empty
    string are both false. *)
Definition py_or (x : option str) (default : str) : str :=
  match x with
  | Some (c :: s) => c :: s
  | _ => default
  end.

Section Coordinator.
Context {U : PyUnicode}.

(** The engine, with a state [E] of its own that this program cannot see. *)
Variable E : Type.

Record athena := {
  client : E -> outcome unit * E;
  start_query_execution :
    str -> str -> str -> E -> outcome start_query_execution_output * E;
  get_query_execution : str -> E -> outcome get_query_execution_output * E;
  get_query_results :
    str -> option Z -> E -> outcome get_query_results_output * E
}.

Variable session : athena.

(** The engine's state and the events so far, most recent first. *)
Record world := { engine_state : E; trace : list event }.

Definition M (A : Type) : Type := world -> outcome A * world.

Definition ret {A} (a : A) : M A := fun w => (Ok a, w).

Definition bind {A B} (m : M A) (k : A -> M B) : M B :=
  fun w =>
    match m w with
    | (Ok a, w') => k a w'
    | (Raise message, w') => (Raise message, w')
    end.

Notation "x <- m ;; k" := (bind m (fun x => k))
  (at level 100, m at next level, right associativity).

Definition call {A} (op : E -> outcome A * E) (ev : outcome A -> event) : M A :=
  fun w =>
    let (r, e) := op (engine_state w) in
    (r, {| engine_state := e; trace := ev r :: trace w |}).

Definition sleep (seconds : Z) : M unit :=
  fun w => (Ok tt, {| engine_state := engine_state w;
                      trace := Sleep seconds :: trace w |}).

(** A step that touches nothing outside. *)
Definition lift {A} (o : outcome A) : M A := fun w => (o, w).

(** [try: ... except Exception as e: return {"error": str(e)}]; the message
    the handler also logs is not modelled. *)
Definition try_except (body : M (dict pyval)) : world -> dict pyval * world :=
  fun w =>
    match body w with
    | (Ok result, w') => (result, w')
    | (Raise message, w') => (error_outcome message, w')
    end.

(** The [while] loop of lines 172-180.  Each turn consumes one unit of
    [fuel]; [poll_fuel] shows that [max_retries] units are never used up
    before the loop's own condition ends it. *)
Fixpoint poll (fuel : nat) (query_execution_id status : str) (retry_count : Z)
  : M (str * Z) :=
  match fuel with
  | O => ret (status, retry_count)
  | S fuel' =>
      if in_progress status && (retry_count <? max_retries)%Z then
        status_response <-
          call (get_query_execution session query_execution_id)
               (GetQueryExecution query_execution_id) ;;
        status <- lift (get_state status_response) ;;
        _ <- (if in_progress status then sleep 1 else ret tt) ;;
        poll fuel' query_execution_id status (retry_count + 1)
      else ret (status, retry_count)
  end.

Definition execute_athena_query (self : querier) (query_string : str)
    (workgroup output_location : option str) (wait_for_completion : bool)
  : world -> dict pyval * world :=
  try_except (
    let workgroup := py_or workgroup (athena_workgroup self) in
    let output_location :=
      py_or output_location (athena_output_location self) in
    match validate_query query_string with
    | Some rejection => ret rejection
    | None =>
        _ <- call (client session) Client ;;
        response <-
          call (start_query_execution session query_string workgroup
                  output_location)
               (StartQueryExecution query_string workgroup output_location) ;;
        query_execution_id <-
          lift (getitem (QueryExecutionId response) "QueryExecutionId") ;;
        let result :=
          [(lit "QueryExecutionId", PStr query_execution_id);
           (lit "OutputLocation",
            PStr (output_location ++ query_execution_id ++ lit ".csv"))] in
        if wait_for_completion then
          sr <- poll (Z.to_nat max_retries) query_execution_id
                  (lit "RUNNING") 0 ;;
          let status := fst sr in
          let result := dict_set result (lit "Status") (PStr status) in
          if str_eqb status (lit "SUCCEEDED") then
            results_response <-
              call (get_query_results session query_execution_id None)
                   (GetQueryResults query_execution_id None) ;;
            ret (dict_set result (lit "Results") (PResults results_response))
          else ret result
        else ret result
    end).

(** The response of the status check is read several times and never
    changed; each member the code indexes is looked up here once, in the
    order in which the code first indexes it: [QueryExecution], [Status] and
    [State] for line 217, [ResultConfiguration] for line 222. *)
Definition get_athena_query_results (query_execution_id : str) (max_results : Z)
  : world -> dict pyval * world :=
  try_except (
    _ <- call (client session) Client ;;
    status_response <-
      call (get_query_execution session query_execution_id)
           (GetQueryExecution query_execution_id) ;;
    query_execution <-
      lift (getitem (QueryExecution status_response) "QueryExecution") ;;
    execution_status <-
      lift (getitem (Status query_execution) "Status") ;;
    status <- lift (getitem (State execution_status) "State") ;;
    result_configuration <-
      lift (getitem (ResultConfiguration query_execution)
              "ResultConfiguration") ;;
    let result :=
      [(lit "QueryExecutionId", PStr query_execution_id);
       (lit "Status", PStr status);
       (lit "StatisticsDetails",
        match Statistics query_execution with
        | Some statistics => statistics
        | None => PDict []
        end);
       (lit "OutputLocation",
        PStr (get_default (OutputLocation result_configuration) []))] in
    let result :=
      if str_eqb status (lit "FAILED") then
        match StateChangeReason execution_status with
        | Some reason => dict_set result (lit "ErrorMessage") (PStr reason)
        | None => result
        end
      else result in
    if str_eqb status (lit "SUCCEEDED") then
      results_response <-
        call (get_query_results session query_execution_id (Some max_results))
             (GetQueryResults query_execution_id (Some max_results)) ;;
      let column_info := process_columns results_response in
      rows <- lift (process_rows results_response column_info) ;;
      let result :=
        dict_set result (lit "ColumnInfo")
                 (PList (map column_value column_info)) in
      let result := dict_set result (lit "Rows") (PList (map row_value rows)) in
      let result :=
        dict_set result (lit "RowCount") (PInt (Z.of_nat (length rows))) in
      ret result
    else ret result).

End Coordinator.

Arguments client {E} _ _.
Arguments start_query_execution {E} _ _ _ _ _.
Arguments get_query_execution {E} _ _ _.
Arguments get_query_results {E} _ _ _ _.
Arguments Build_world {E} _ _.
Arguments engine_state {E} _.
Arguments trace {E} _.
Arguments ret {E A} _ _.
Arguments bind {E A B} _ _ _.
Arguments call {E A} _ _ _.
Arguments sleep {E} _ _.
Arguments lift {E A} _ _.
Arguments try_except {E} _ _.
Arguments poll {E} _ _ _ _ _ _.
Arguments execute_athena_query {U E} _ _ _ _ _ _ _.
Arguments get_athena_query_results {E} _ _ _ _.

(** The world at the start of a tool call: nothing has happened yet. *)
Definition fresh {E} (e : E) : world E := {| engine_state := e; trace := [] |}.

(** ** The tool layer

    [handle_list_tools] and [handle_call_tool] of [main]. *)

(** JSON, for the input schemas of the tools. *)
#[warnings="-register-all"]
Inductive json :=
| JStr (s : str)
| JInt (n : Z)
| JBool (b : bool)
| JList (l : list json)
| JObject (fields : list (str * json)).

(** [types.Tool(name=..., description=..., inputSchema=...)] *)
Record tool := {
  tool_name : str;
  tool_description : str;
  inputSchema : json
}.

Definition string_property (description : string) : json :=
  JObject [(lit "type", JStr (lit "string"));
           (lit "description", JStr (lit description))].

(** The [properties] of the two input schemas. *)
Definition query_properties : json :=
  JObject
    [(lit "query_string",
      string_property "The SQL query to execute in Athena");
     (lit "workgroup",
      string_property
        "The Athena workgroup to use. If not provided, uses the server's configured default.");
     (lit "output_location",
      string_property
        "S3 location to store query results. If not provided, uses the server's configured default.");
     (lit "wait_for_completion",
      JObject
        [(lit "type", JStr (lit "boolean"));
         (lit "description",
          JStr (lit "Whether to wait for query completion"));
         (lit "default", JBool false)])].

Definition results_properties : json :=
  JObject
    [(lit "query_execution_id",
      string_property "The execution ID of the query to get results for");
     (lit "max_results",
      JObject
        [(lit "type", JStr (lit "integer"));
         (lit "description",
          JStr (lit "Maximum number of results to return"));
         (lit "default", JInt 1000)])].

Definition query_tool : tool := {|
  tool_name := lit "aws_athena_query";
  tool_description :=
    lit "Execute an Athena SQL query and return the execution details";
  inputSchema :=
    JObject
      [(lit "type", JStr (lit "object"));
       (lit "properties", query_properties);
       (lit "required", JList [JStr (lit "query_string")])]
|}.

Definition results_tool : tool := {|
  tool_name := lit "aws_athena_get_query_results";
  tool_description :=
    lit "Get the results of a previously executed Athena query";
  inputSchema :=
    JObject
      [(lit "type", JStr (lit "object"));
       (lit "properties", results_properties);
       (lit "required", JList [JStr (lit "query_execution_id")])]
|}.

Definition handle_list_tools : list tool := [query_tool; results_tool].

(** The [arguments] of a tool call: a dictionary whose values have the types
    the input schemas give them; keys the handler does not read are left
    out.  A field is [None] when its key is absent. *)
Record arguments := {
  arg_query_string : option str;
  arg_workgroup : option str;
  arg_output_location : option str;
  arg_wait_for_completion : option bool;
  arg_query_execution_id : option str;
  arg_max_results : option Z
}.

(** [types.TextContent(type=..., text=...)] *)
Record text_content := { content_type : str; text : str }.

Definition text_reply (s : str) : list text_content :=
  [ {| content_type := lit "text"; text := s |} ].

Section Tools.
Context {U : PyUnicode} {E : Type}.
Variable session : athena E.
Variable aws_querier : querier.

(** [json.dumps(result, default=str)] *)
Variable json_dumps : dict pyval -> str.

(** The body of the [try] of [handle_call_tool]; [Raise] is its
    [ValueError]. *)
Definition call_tool_body (name : str) (args : option arguments)
  : world E -> outcome (list text_content) * world E :=
  fun w =>
    if str_eqb name (lit "aws_athena_query") then
      match args with
      | Some a =>
          match arg_query_string a with
          | Some query_string =>
              let workgroup := arg_workgroup a in
              let output_location := arg_output_location a in
              let wait_for_completion :=
                match arg_wait_for_completion a with
                | Some b => b
                | None => false
                end in
              let (result, w') :=
                execute_athena_query session aws_querier query_string
                  workgroup output_location wait_for_completion w in
              (Ok (text_reply (json_dumps result)), w')
          | None => (Raise (lit "Missing query_string argument"), w)
          end
      | None => (Raise (lit "Missing query_string argument"), w)
      end
    else if str_eqb name (lit "aws_athena_get_query_results") then
      match args with
      | Some a =>
          match arg_query_execution_id a with
          | Some query_execution_id =>
              let max_results :=
                match arg_max_results a with
                | Some n => n
                | None => 1000%Z
                end in
              let (result, w') :=
                get_athena_query_results session query_execution_id
                  max_results w in
              (Ok (text_reply (json_dumps result)), w')
          | None => (Raise (lit "Missing query_execution_id argument"), w)
          end
      | None => (Raise (lit "Missing query_execution_id argument"), w)
      end
    else (Raise (lit "Unknown tool: " ++ name), w).

Definition handle_call_tool (name : str) (args : option arguments)
  : world E -> list text_content * world E :=
  fun w =>
    match call_tool_body name args w with
    | (Ok reply, w') => (reply, w')
    | (Raise message, w') => (text_reply (lit "Error: " ++ message), w')
    end.

End Tools.

Arguments call_tool_body {U E} _ _ _ _ _ _.
Arguments handle_call_tool {U E} _ _ _ _ _ _.

(** ** Configuration

    [parse_arguments] and [AWSResourceQuerier.__init__].  The command line
    is given as argparse has read it: the value of each switch that was
    given. *)

Record namespace := {
  access_key_id : option str;
  secret_access_key : option str;
  session_token : option str;
  profile : option str;
  region : str;
  ns_athena_workgroup : str;
  ns_athena_output_location : str
}.

(** [os.environ.get(name)] and [os.environ.get(name, default)] *)
Definition environ_get (environ : dict str) (name : str) : option str :=
  dict_get environ name.

Definition environ_get_default (environ : dict str) (name default : str) : str :=
  match dict_get environ name with Some v => v | None => default end.

(** [parser.add_argument(switch, default=default)], once the command line
    is parsed. *)
Definition add_argument (switches : dict str) (switch : str)
    (default : option str) : option str :=
  match dict_get switches switch with
  | Some v => Some v
  | None => default
  end.

Definition add_argument_default (switches : dict str) (switch default : str)
  : str :=
  match dict_get switches switch with
  | Some v => v
  | None => default
  end.

Definition parse_arguments (switches environ : dict str) : namespace := {|
  access_key_id :=
    add_argument switches (lit "--access-key-id")
      (environ_get environ (lit "AWS_ACCESS_KEY_ID"));
  secret_access_key :=
    add_argument switches (lit "--secret-access-key")
      (environ_get environ (lit "AWS_SECRET_ACCESS_KEY"));
  session_token :=
    add_argument switches (lit "--session-token")
      (environ_get environ (lit "AWS_SESSION_TOKEN"));
  profile :=
    add_argument switches (lit "--profile")
      (environ_get environ (lit "AWS_PROFILE"));
  region :=
    add_argument_default switches (lit "--region")
      (environ_get_default environ (lit "AWS_DEFAULT_REGION") (lit "us-east-1"));
  ns_athena_workgroup :=
    add_argument_default switches (lit "--athena-workgroup")
      (environ_get_default environ (lit "AWS_ATHENA_WORKGROUP") (lit "primary"));
  ns_athena_output_location :=
    add_argument_default switches (lit "--athena-output-location")
      (environ_get_default environ (lit "AWS_ATHENA_OUTPUT_LOCATION")
         (lit "s3://aws-athena-query-results-qa-ue1/query-results/"))
|}.

(** [not x], for an optional string. *)
Definition py_not (x : option str) : bool :=
  match x with
  | Some (_ :: _) => false
  | _ => true
  end.

(** [AWSResourceQuerier.__init__]: the defaults it stores, and whether it
    logs the warning about missing credentials.  The session it creates is
    the [session] of the coordinator. *)
Definition init (switches environ : dict str) : querier * bool :=
  let args := parse_arguments switches environ in
  ({| athena_workgroup := ns_athena_workgroup args;
      athena_output_location := ns_athena_output_location args |},
   py_not (profile args)
   && (py_not (access_key_id args) || py_not (secret_access_key args))).

(** ** The code analyser

    [CodeExecutor], an [ast.NodeTransformer].  A node is of one of the three
    classes the class has a method for, or of another class; for those
    [generic_visit] visits the child nodes in the order of the fields. *)

Inductive target :=
| Name_ (id : str)
| OtherTarget.

#[warnings="-register-all"]
Inductive node :=
| Assign (targets : list target)
| Import (names : list str)
| ImportFrom (module : option str)
| Other (children : list node).

(** The state of a [CodeExecutor]; the set of modules is kept as a list
    without repetitions. *)
Record code_executor := {
  has_result : bool;
  imported_modules : list (option str)
}.

(** [CodeExecutor()] *)
Definition new_code_executor : code_executor :=
  {| has_result := false; imported_modules := [] |}.

Definition module_eqb (a b : option str) : bool :=
  match a, b with
  | Some x, Some y => str_eqb x y
  | None, None => true
  | _, _ => false
  end.

(** [s.add(x)] *)
Definition set_add (s : list (option str)) (x : option str)
  : list (option str) :=
  if existsb (module_eqb x) s then s else s ++ [x].

Definition visit_Assign (targets : list target) (self : code_executor)
  : code_executor :=
  fold_left
    (fun self t =>
       match t with
       | Name_ id =>
           if str_eqb id (lit "result")
           then {| has_result := true;
                   imported_modules := imported_modules self |}
           else self
       | OtherTarget => self
       end)
    targets self.

Definition visit_Import (names : list str) (self : code_executor)
  : code_executor :=
  fold_left
    (fun self name =>
       {| has_result := has_result self;
          imported_modules := set_add (imported_modules self) (Some name) |})
    names self.

Definition visit_ImportFrom (module : option str) (self : code_executor)
  : code_executor :=
  {| has_result := has_result self;
     imported_modules := set_add (imported_modules self) module |}.

(** [self.visit(node)]: the node it returns and the state it leaves. *)
Fixpoint visit (n : node) (self : code_executor) : node * code_executor :=
  match n with
  | Assign targets => (n, visit_Assign targets self)
  | Import names => (n, visit_Import names self)
  | ImportFrom module => (n, visit_ImportFrom module self)
  | Other children =>
      let fix generic_visit (l : list node) (self : code_executor)
        : list node * code_executor :=
        match l with
        | [] => ([], self)
        | c :: l' =>
            let (c', self1) := visit c self in
            let (l'', self2) := generic_visit l' self1 in
            (c' :: l'', self2)
        end in
      let (children', self') := generic_visit children self in
      (Other children', self')
  end.

(** *** A scripted engine

    For running the model: the engine hands out [id], answers the [n]-th
    status check with [status n] and every get-results call with [results].
    Its state counts the status checks it has answered. *)
Definition scripted (id : str) (status : nat -> outcome get_query_execution_output)
    (results : outcome get_query_results_output) : athena nat := {|
  client := fun n => (Ok tt, n);
  start_query_execution :=
    fun _ _ _ n => (Ok {| QueryExecutionId := Some id |}, n);
  get_query_execution := fun _ n => (status n, S n);
  get_query_results := fun _ _ n => (results, n)
|}.

(** A status response with the given state and state-change reason. *)
Definition reports (state : str) (reason : option str)
  : outcome get_query_execution_output :=
  Ok {| QueryExecution := Some {|
          Status := Some {| State := Some state; StateChangeReason := reason |};
          Statistics := None;
          ResultConfiguration :=
            Some {| OutputLocation := Some (lit "s3://results/q-1.csv") |} |} |}.

Definition the_querier : querier := {|
  athena_workgroup := lit "primary";
  athena_output_location := lit "s3://results/"
|}.

Definition cell (s : string) : datum := {| VarCharValue := Some (lit s) |}.

Definition null_cell : datum := {| VarCharValue := None |}.

Definition varchar_column (name : string) : column_info :=
  {| Name := Some (lit name); Type_ := Some (lit "varchar") |}.

Definition raw_results (columns : list column_info) (rows : list row)
  : get_query_results_output :=
  {| ResultSet := Some {|
       Rows := Some rows;
       ResultSetMetadata := Some {| ColumnInfo := Some columns |} |} |}.

(** The engine's answer to [SELECT id, name ...] with two data rows: the
    header comes first. *)
Definition two_rows : get_query_results_output :=
  raw_results [varchar_column "id"; varchar_column "name"]
    [ {| Data := Some [cell "id"; cell "name"] |};
      {| Data := Some [cell "1"; cell "ada"] |};
      {| Data := Some [cell "2"; cell "bob"] |} ].

(** *** Sample inputs *)

(** [SELECT * FROM t; DROP TABLE t] *)
Definition trailing_drop : str := lit "SELECT * FROM t; DROP TABLE t".

(** [DROP TABLE x] *)
Definition drop_table : str := lit "DROP TABLE x".

(** Spaces, a line feed and a tab around a lower-case query that holds DROP
    and CREATE only inside longer words. *)
Definition dropping_creator : str :=
  [32; 32; 10; 9]%N
  ++ lit "select * from T where c = 'Dropping' and d = 'CREATOR'"
  ++ [32; 10]%N.

(** The whitespace-only query of the tests. *)
Definition blank : str := [32; 32; 32; 10; 32; 32; 32; 9; 32; 32; 32]%N.

Definition syntax_error : str :=
  lit "SYNTAX_ERROR: line 1:8: Column 'x' cannot be resolved".

(** An engine that accepts the query and reports FAILED, with a reason. *)
Definition failing_engine : athena nat :=
  scripted (lit "q-1") (fun _ => reports (lit "FAILED") (Some syntax_error))
    (Ok two_rows).

(** An engine that reports RUNNING twice, then SUCCEEDED, and delivers
    [two_rows]. *)
Definition succeeding_engine : athena nat :=
  scripted (lit "q-1")
    (fun n => if n <? 2 then reports (lit "RUNNING") None
              else reports (lit "SUCCEEDED") None)
    (Ok two_rows).

(** An engine that never gets past RUNNING. *)
Definition busy_engine : athena nat :=
  scripted (lit "q-1") (fun _ => reports (lit "RUNNING") None) (Ok two_rows).

(** An engine that reports SUCCEEDED and then refuses to deliver. *)
Definition throttled_engine : athena nat :=
  scripted (lit "q-1") (fun _ => reports (lit "SUCCEEDED") None)
    (Raise (lit "ThrottlingException: Rate exceeded")).

(** Two columns of the same name, as a join returns them, and a row whose
    first cell is a SQL NULL. *)
Definition same_name_columns : list column :=
  [ {| col_Name := lit "id"; col_Type := lit "varchar" |};
    {| col_Name := lit "id"; col_Type := lit "varchar" |} ].

Definition null_then_seven : row := {| Data := Some [null_cell; cell "7"] |}.

Definition id_name_columns : list column :=
  [ {| col_Name := lit "id"; col_Type := lit "varchar" |};
    {| col_Name := lit "name"; col_Type := lit "varchar" |} ].

Definition one_then_null : row := {| Data := Some [cell "1"; null_cell] |}.

(** A waiting submission to [succeeding_engine], one to [failing_engine],
    and a fetch from [throttled_engine]. *)
Definition succeeded_run : dict pyval * world nat :=
  execute_athena_query succeeding_engine the_querier
    (lit "SELECT id, name FROM t") None None true (fresh 0).

Definition failed_run : dict pyval * world nat :=
  execute_athena_query failing_engine the_querier
    (lit "SELECT x FROM t") None None true (fresh 0).



(** A submission to [throttled_engine], which waits. *)
Definition throttled_run : dict pyval * world nat :=
  execute_athena_query throttled_engine the_querier (lit "SELECT 1") None None
    true (fresh 0).

(** A fetch of the results [succeeding_engine] has ready. *)
Definition ready_fetch : dict pyval * world nat :=
  get_athena_query_results succeeding_engine (lit "q-1") 1000 (fresh 2).

(** A status response with the given state and state-change reason, and
    no result configuration. *)
Definition reports_unconfigured (state : str) (reason : option str)
  : outcome get_query_execution_output :=
  Ok {| QueryExecution := Some {|
          Status := Some {| State := Some state; StateChangeReason := reason |};
          Statistics := None;
          ResultConfiguration := None |} |}.

(** An engine that reports FAILED, with a reason and without a result
    configuration. *)
Definition unconfigured_engine : athena nat :=
  scripted (lit "q-1")
    (fun _ => reports_unconfigured (lit "FAILED") (Some syntax_error))
    (Ok two_rows).

Definition unconfigured_fetch : dict pyval * world nat :=
  get_athena_query_results unconfigured_engine (lit "q-1") 1000 (fresh 0).

(** The engine's answer under one column, with a header and one more row
    that has no data array. *)
Definition row_without_data : get_query_results_output :=
  raw_results [varchar_column "id"]
    [ {| Data := Some [cell "id"] |}; {| Data := None |} ].

(** An engine that reports SUCCEEDED and delivers [row_without_data]. *)
Definition dataless_engine : athena nat :=
  scripted (lit "q-1") (fun _ => reports (lit "SUCCEEDED") None)
    (Ok row_without_data).

Definition dataless_fetch : dict pyval * world nat :=
  get_athena_query_results dataless_engine (lit "q-1") 1000 (fresh 0).

(** The arguments of a tool call with nothing but a query. *)
Definition only_query (query_string : str) : arguments := {|
  arg_query_string := Some query_string;
  arg_workgroup := None;
  arg_output_location := None;
  arg_wait_for_completion := None;
  arg_query_execution_id := None;
  arg_max_results := None
|}.

(** A serialiser that tells nothing, for running the handler. *)
Definition blank_dumps (result : dict pyval) : str := lit "{}".

(** A serialiser that tells the keys of the dictionary, each followed by a
    comma, for running the handler. *)
Definition keys_dumps (result : dict pyval) : str :=
  flat_map (fun kv => fst kv ++ lit ",") result.

(** [SELECT], a tab, [1]. *)
Definition select_tab_one : str := lit "SELECT" ++ [9%N] ++ lit "1".

(** ** The notions of the specification *)

Section Words.
Context {U : PyUnicode}.

Definition first_word (s : str) : bool :=
  match s with [] => false | c :: _ => isword c end.

Definition last_word (s : str) : bool := first_word (rev s).

(** [keyword] occurs in [text] as a whole word: the character before it, if
    any, and the character after it, if any, are not word characters. *)
Definition whole_word (keyword text : str) : Prop :=
  exists pre post,
    text = pre ++ keyword ++ post
    /\ last_word pre = false /\ first_word post = false.

(** [keyword] is the first entry of the denylist, in its order, that occurs
    in [text] as a whole word. *)
Definition first_whole_word (keyword text : str) : Prop :=
  exists before after,
    disallowed_keywords = before ++ keyword :: after
    /\ whole_word keyword text
    /\ Forall (fun k => ~ whole_word k text) before.

End Words.

(** The calls a trace holds, by kind. *)
Definition is_status_check (ev : event) : bool :=
  match ev with GetQueryExecution _ _ => true | _ => false end.

Definition is_start (ev : event) : bool :=
  match ev with StartQueryExecution _ _ _ _ => true | _ => false end.

Definition status_checks (t : list event) : nat :=
  length (filter is_status_check t).

(** The members of a status response the code reads, when they are
    there. *)
Definition status_of (r : get_query_execution_output)
  : option query_execution_status :=
  match QueryExecution r with
  | Some query_execution => Status query_execution
  | None => None
  end.

Definition state_of (r : get_query_execution_output) : option str :=
  match status_of r with
  | Some status => State status
  | None => None
  end.

Definition reason_of (r : get_query_execution_output) : option str :=
  match status_of r with
  | Some status => StateChangeReason status
  | None => None
  end.

Definition statistics_of (r : get_query_execution_output) : option pyval :=
  match QueryExecution r with
  | Some query_execution => Statistics query_execution
  | None => None
  end.

Definition configuration_of (r : get_query_execution_output)
  : option result_configuration :=
  match QueryExecution r with
  | Some query_execution => ResultConfiguration query_execution
  | None => None
  end.

(** The response carries the state QUEUED or RUNNING. *)
Definition pending (r : get_query_execution_output) : bool :=
  match state_of r with
  | Some status => in_progress status
  | None => false
  end.

(** The state the most recent status check of a trace answered with, if it
    answered with one. *)
Fixpoint last_status (t : list event) : option str :=
  match t with
  | [] => None
  | GetQueryExecution _ (Ok r) :: _ => state_of r
  | GetQueryExecution _ (Raise _) :: _ => None
  | _ :: t' => last_status t'
  end.

(** A status check that answered QUEUED or RUNNING. *)
Definition answered_in_progress (ev : event) : Prop :=
  match ev with
  | GetQueryExecution _ (Ok r) => pending r = true
  | _ => False
  end.

(** The events of one turn of the poll loop that got the answer [r], and of
    the turns that got the answers [rs] one after the other (most recent
    event first). *)
Definition check_events (id : str) (r : get_query_execution_output) : list event :=
  if pending r
  then [Sleep 1; GetQueryExecution id (Ok r)]
  else [GetQueryExecution id (Ok r)].

Fixpoint poll_events (id : str) (rs : list get_query_execution_output)
  : list event :=
  match rs with
  | [] => []
  | r :: rs' => poll_events id rs' ++ check_events id r
  end.

(** The ways a run of the loop ends, after the turns that got the answers
    [rs]: a status check raises; a status check is answered without a state;
    a status check is answered with a state at which the loop stops. *)
Definition poll_ends {E : Type} (fuel : nat) (id : str) (rc : Z) (w : world E)
    (rs : list get_query_execution_output) (res : outcome (str * Z))
    (w' : world E) : Prop :=
  (exists m,
      res = Raise m
      /\ trace w' = GetQueryExecution id (Raise m) :: poll_events id rs ++ trace w)
  \/ (exists r m,
        res = Raise m /\ get_state r = Raise m
        /\ trace w' = poll_events id (rs ++ [r]) ++ trace w)
  \/ (exists r status,
        res = Ok (status, (rc + Z.of_nat (length rs) + 1)%Z)
        /\ state_of r = Some status
        /\ trace w' = poll_events id (rs ++ [r]) ++ trace w
        /\ (in_progress status = false
            \/ (rc + Z.of_nat (length rs) + 1 = max_retries)%Z
            \/ S (length rs) = fuel)).

(** What a submission returns before it polls. *)
Definition submitted (output_location id : str) : dict pyval :=
  [(lit "QueryExecutionId", PStr id);
   (lit "OutputLocation", PStr (output_location ++ id ++ lit ".csv"))].

(** The events of a submission that the engine accepted under [id]. *)
Definition started (query_string workgroup output_location id : str)
  : list event :=
  [StartQueryExecution query_string workgroup output_location
     (Ok {| QueryExecutionId := Some id |});
   Client (Ok tt)].

(** The events of a submission that the engine answered without an
    execution id. *)
Definition started_without_id (query_string workgroup output_location : str)
  : list event :=
  [StartQueryExecution query_string workgroup output_location
     (Ok {| QueryExecutionId := None |});
   Client (Ok tt)].

(** The outcomes and traces of a submission that waits, for a query the
    validator admits. *)
Inductive waited (q wg ol : str) : dict pyval -> list event -> Prop :=
| waited_no_client m :
    waited q wg ol (error_outcome m) [Client (Raise m)]
| waited_no_start m :
    waited q wg ol (error_outcome m)
      [StartQueryExecution q wg ol (Raise m); Client (Ok tt)]
| waited_no_id :
    waited q wg ol (error_outcome (key_error "QueryExecutionId"))
      (started_without_id q wg ol)
| waited_poll_raised id rs m :
    Forall (fun r => pending r = true) rs ->
    length rs < 100 ->
    waited q wg ol (error_outcome m)
      (GetQueryExecution id (Raise m) :: poll_events id rs ++ started q wg ol id)
| waited_no_state id rs r m :
    Forall (fun r => pending r = true) rs ->
    length rs < 100 ->
    get_state r = Raise m ->
    waited q wg ol (error_outcome m)
      (poll_events id (rs ++ [r]) ++ started q wg ol id)
| waited_settled id rs r status :
    Forall (fun r => pending r = true) rs ->
    length rs < 100 ->
    state_of r = Some status ->
    in_progress status = false \/ length rs = 99 ->
    status <> lit "SUCCEEDED" ->
    waited q wg ol
      (submitted ol id ++ [(lit "Status", PStr status)])
      (poll_events id (rs ++ [r]) ++ started q wg ol id)
| waited_succeeded id rs r res :
    Forall (fun r => pending r = true) rs ->
    length rs < 100 ->
    state_of r = Some (lit "SUCCEEDED") ->
    waited q wg ol
      (match res with
       | Ok results_response =>
           submitted ol id ++ [(lit "Status", PStr (lit "SUCCEEDED"));
                               (lit "Results", PResults results_response)]
       | Raise m => error_outcome m
       end)
      (GetQueryResults id None res
         :: poll_events id (rs ++ [r]) ++ started q wg ol id).

(** What [get_athena_query_results] makes of a get-results response. *)
Definition normalized (results_response : get_query_results_output)
  : outcome (dict pyval) :=
  let column_info := process_columns results_response in
  and_then (process_rows results_response column_info) (fun rows =>
    Ok [(lit "ColumnInfo", PList (map column_value column_info));
        (lit "Rows", PList (map row_value rows));
        (lit "RowCount", PInt (Z.of_nat (length rows)))]).

(** The text of a cell: its value, or the empty string when it has none. *)
Definition cell_text (c : datum) : str := get_default (VarCharValue c) [].

(** The cells of a row; none when the row has no data array. *)
Definition cells_of (r : row) : list datum :=
  match Data r with
  | Some cells => cells
  | None => []
  end.

(** The dictionary of the column names zipped, by index, with the texts of
    the cells of a row. *)
Definition zipped (column_info : list column) (r : row) : dict str :=
  dict_of (combine (map col_Name column_info) (map cell_text (cells_of r))).

(** A row the normaliser can build: it has a data array, or there is no
    column to look up in it. *)
Definition buildable (column_info : list column) (r : row) : bool :=
  match Data r, column_info with
  | None, _ :: _ => false
  | _, _ => true
  end.

(** The rows of a response as the engine sent them, header included. *)
Definition raw_rows (results_response : get_query_results_output) : list row :=
  match ResultSet results_response with
  | Some rs => match Rows rs with Some raw => raw | None => [] end
  | None => []
  end.

(** The status and metadata entries of [get_athena_query_results], for a
    status response that carries a state and a result configuration. *)
Definition metadata (id : str) (r : get_query_execution_output)
  : outcome (dict pyval) :=
  and_then (get_state r) (fun status =>
  and_then (getitem (configuration_of r) "ResultConfiguration")
    (fun result_configuration =>
       Ok ([(lit "QueryExecutionId", PStr id);
            (lit "Status", PStr status);
            (lit "StatisticsDetails",
             match statistics_of r with
             | Some statistics => statistics
             | None => PDict []
             end);
            (lit "OutputLocation",
             PStr (get_default (OutputLocation result_configuration) []))]
           ++ (if str_eqb status (lit "FAILED") then
                 match reason_of r with
                 | Some reason => [(lit "ErrorMessage", PStr reason)]
                 | None => []
                 end
               else [])))).

(** The outcomes and traces of [get_athena_query_results]. *)
Inductive fetched (id : str) (max : Z) : dict pyval -> list event -> Prop :=
| fetched_no_client m :
    fetched id max (error_outcome m) [Client (Raise m)]
| fetched_no_status m :
    fetched id max (error_outcome m)
      [GetQueryExecution id (Raise m); Client (Ok tt)]
| fetched_unread r m :
    metadata id r = Raise m ->
    fetched id max (error_outcome m)
      [GetQueryExecution id (Ok r); Client (Ok tt)]
| fetched_unfinished r entries :
    metadata id r = Ok entries ->
    state_of r <> Some (lit "SUCCEEDED") ->
    fetched id max entries
      [GetQueryExecution id (Ok r); Client (Ok tt)]
| fetched_results r entries res :
    metadata id r = Ok entries ->
    state_of r = Some (lit "SUCCEEDED") ->
    fetched id max
      (match res with
       | Ok results_response =>
           match normalized results_response with
           | Ok fields => entries ++ fields
           | Raise m => error_outcome m
           end
       | Raise m => error_outcome m
       end)
      [GetQueryResults id (Some max) res;
       GetQueryExecution id (Ok r); Client (Ok tt)].

(** Text of ASCII characters only. *)
Definition is_ascii (s : str) : Prop := Forall (fun c => (c < 128)%N) s.

(** The message of the exception an engine call of the trace ended with. *)
Definition raised (ev : event) : option str :=
  match ev with
  | Client (Raise m) => Some m
  | StartQueryExecution _ _ _ (Raise m) => Some m
  | GetQueryExecution _ (Raise m) => Some m
  | GetQueryResults _ _ (Raise m) => Some m
  | _ => None
  end.

(** The seconds a trace spent asleep. *)
Fixpoint slept (t : list event) : Z :=
  match t with
  | [] => 0
  | Sleep seconds :: t' => seconds + slept t'
  | _ :: t' => slept t'
  end.

Definition answered_in_progressb (ev : event) : bool :=
  match ev with
  | GetQueryExecution _ (Ok r) => pending r
  | _ => false
  end.

(** The execution a status check or a get-results call asks about. *)
Definition event_id (ev : event) : option str :=
  match ev with
  | GetQueryExecution id _ => Some id
  | GetQueryResults id _ _ => Some id
  | _ => None
  end.

(** The outcomes and traces of a submission that does not wait, for a query
    the validator admits. *)
Inductive unwaited (q wg ol : str) : dict pyval -> list event -> Prop :=
| unwaited_no_client m :
    unwaited q wg ol (error_outcome m) [Client (Raise m)]
| unwaited_no_start m :
    unwaited q wg ol (error_outcome m)
      [StartQueryExecution q wg ol (Raise m); Client (Ok tt)]
| unwaited_no_id :
    unwaited q wg ol (error_outcome (key_error "QueryExecutionId"))
      (started_without_id q wg ol)
| unwaited_accepted id :
    unwaited q wg ol (submitted ol id) (started q wg ol id).

(** *** Reading schemas and arguments *)

(** [j[key]], when [j] is an object that has the key. *)
Definition json_get (j : json) (key : str) : option json :=
  match j with
  | JObject fields => dict_get fields key
  | _ => None
  end.

(** The keys a schema lists as required. *)
Definition required_keys (schema : json) : list str :=
  match json_get schema (lit "required") with
  | Some (JList l) =>
      flat_map (fun j => match j with JStr s => [s] | _ => [] end) l
  | _ => []
  end.

(** The default a schema gives for a property. *)
Definition schema_default (schema : json) (key : str) : option json :=
  match json_get schema (lit "properties") with
  | Some properties =>
      match json_get properties key with
      | Some property => json_get property (lit "default")
      | None => None
      end
  | None => None
  end.

Definition is_some {A} (o : option A) : bool :=
  match o with Some _ => true | None => false end.

(** [key in arguments] *)
Definition argument_present (a : arguments) (key : str) : bool :=
  if str_eqb key (lit "query_string") then is_some (arg_query_string a)
  else if str_eqb key (lit "workgroup") then is_some (arg_workgroup a)
  else if str_eqb key (lit "output_location") then
    is_some (arg_output_location a)
  else if str_eqb key (lit "wait_for_completion") then
    is_some (arg_wait_for_completion a)
  else if str_eqb key (lit "query_execution_id") then
    is_some (arg_query_execution_id a)
  else if str_eqb key (lit "max_results") then is_some (arg_max_results a)
  else false.

(** The arguments with one more key, of a value of the type of the key. *)
Definition with_argument (a : arguments) (key : str) (v : json) : arguments :=
  match v with
  | JBool b =>
      if str_eqb key (lit "wait_for_completion") then
        {| arg_query_string := arg_query_string a;
           arg_workgroup := arg_workgroup a;
           arg_output_location := arg_output_location a;
           arg_wait_for_completion := Some b;
           arg_query_execution_id := arg_query_execution_id a;
           arg_max_results := arg_max_results a |}
      else a
  | JInt n =>
      if str_eqb key (lit "max_results") then
        {| arg_query_string := arg_query_string a;
           arg_workgroup := arg_workgroup a;
           arg_output_location := arg_output_location a;
           arg_wait_for_completion := arg_wait_for_completion a;
           arg_query_execution_id := arg_query_execution_id a;
           arg_max_results := Some n |}
      else a
  | _ => a
  end.

(** The first of the request's value, the switch, the environment variable
    and the built-in default that is there; an empty value of the request
    counts as absent. *)
Definition first_given (request switch variable : option str) (default : str)
  : str :=
  match request with
  | Some (c :: s) => c :: s
  | _ =>
      match switch with
      | Some v => v
      | None => match variable with Some v => v | None => default end
      end
  end.

(** *** Reading code *)

(** The node, or a node below it that the visitor reaches, assigns to the
    plain name [result]. *)
Inductive assigns_result : node -> Prop :=
| assigns_here targets :
    In (Name_ (lit "result")) targets -> assigns_result (Assign targets)
| assigns_below children c :
    In c children -> assigns_result c -> assigns_result (Other children).

(** The node, or a node below it that the visitor reaches, imports the
    module. *)
Inductive imports (m : option str) : node -> Prop :=
| imports_name names name :
    In name names -> m = Some name -> imports m (Import names)
| imports_from : imports m (ImportFrom m)
| imports_below children c :
    In c children -> imports m c -> imports m (Other children).

(** [generic_visit] over a list of children. *)
Fixpoint visit_list (l : list node) (self : code_executor)
  : list node * code_executor :=
  match l with
  | [] => ([], self)
  | c :: l' =>
      let (c', self1) := visit c self in
      let (l'', self2) := visit_list l' self1 in
      (c' :: l'', self2)
  end.

(** ** Text lemmas *)

Lemma str_eqb_eq (a b : str) : str_eqb a b = true <-> a = b.
Proof.
  revert b; induction a as [|x a IH]; intros [|y b]; simpl;
    try (split; [discriminate | discriminate]); try tauto.
  rewrite andb_true_iff, N.eqb_eq, IH.
  split; [intros [-> ->]; reflexivity | intros H; injection H; auto].
Qed.

Lemma str_eqb_refl (a : str) : str_eqb a a = true.
Proof. apply str_eqb_eq; reflexivity. Qed.

Lemma startswith_app (s p : str) :
  startswith s p = true <-> exists post, s = p ++ post.
Proof.
  revert s; induction p as [|b p IH]; intros s; simpl.
  - split; [intros _; exists s; reflexivity | reflexivity].
  - destruct s as [|a s].
    + split; [discriminate | intros [post H]; discriminate].
    + rewrite andb_true_iff, N.eqb_eq, IH. split.
      * intros [-> [post ->]]. exists post; reflexivity.
      * intros [post H]. injection H as -> ->. split; [reflexivity | eauto].
Qed.

Section TextFacts.
Context {U : PyUnicode}.

Lemma lstrip_all_space (s : str) :
  forallb isspace s = true -> lstrip s = [].
Proof.
  induction s as [|c s IH]; simpl; [reflexivity|].
  intros H; apply andb_true_iff in H as [Hc Hs].
  rewrite Hc; auto.
Qed.

Lemma strip_all_space (s : str) :
  forallb isspace s = true -> strip s = [].
Proof.
  intros H. unfold strip. rewrite (lstrip_all_space _ H). reflexivity.
Qed.

Lemma word_at_app_r (pre post : str) :
  word_at (pre ++ post) (length pre) = first_word post.
Proof.
  unfold word_at. rewrite nth_error_app2 by lia. rewrite Nat.sub_diag.
  destruct post; reflexivity.
Qed.

(** At the seam of a concatenation, [\b] compares the last character of the
    left part with the first of the right part. *)
Lemma at_boundary_app (pre post : str) :
  at_boundary (pre ++ post) (length pre) = xorb (last_word pre) (first_word post).
Proof.
  unfold at_boundary. rewrite word_at_app_r. f_equal.
  destruct (rev pre) as [|c r] eqn:Hr.
  - apply (f_equal (@rev _)) in Hr. rewrite rev_involutive in Hr. subst pre.
    reflexivity.
  - apply (f_equal (@rev _)) in Hr. rewrite rev_involutive in Hr. simpl in Hr.
    subst pre. unfold last_word. rewrite rev_app_distr, rev_involutive. simpl.
    rewrite length_app. simpl. rewrite Nat.add_1_r.
    rewrite <- app_assoc. rewrite word_at_app_r. reflexivity.
Qed.

Lemma first_word_app (k post : str) :
  k <> [] -> first_word (k ++ post) = first_word k.
Proof. destruct k; [congruence | reflexivity]. Qed.

Lemma last_word_app (pre k : str) :
  k <> [] -> last_word (pre ++ k) = last_word k.
Proof.
  intros Hk. unfold last_word. rewrite rev_app_distr.
  apply first_word_app. intros H. apply Hk.
  apply (f_equal (@rev _)) in H. rewrite rev_involutive in H. exact H.
Qed.

Lemma match_at_seam (keyword pre post : str) :
  keyword <> [] -> first_word keyword = true -> last_word keyword = true ->
  match_at keyword (pre ++ keyword ++ post) (length pre)
  = negb (last_word pre) && negb (first_word post).
Proof.
  intros Hne Hf Hl. unfold match_at.
  rewrite at_boundary_app, first_word_app, Hf by exact Hne.
  rewrite skipn_app, Nat.sub_diag, skipn_all. simpl.
  replace (startswith (keyword ++ post) keyword) with true
    by (symmetry; apply startswith_app; eauto).
  rewrite app_assoc, <- length_app, at_boundary_app, last_word_app, Hl by exact Hne.
  destruct (last_word pre), (first_word post); reflexivity.
Qed.

(** The regular expression finds exactly the whole-word occurrences. *)
Lemma re_search_word_spec (keyword text : str) :
  keyword <> [] -> first_word keyword = true -> last_word keyword = true ->
  re_search_word keyword text = true <-> whole_word keyword text.
Proof.
  intros Hne Hf Hl. unfold re_search_word, whole_word.
  rewrite existsb_exists. split.
  - intros [i [Hi Hm]].
    assert (Hs : startswith (skipn i text) keyword = true).
    { unfold match_at in Hm. apply andb_true_iff in Hm as [Hm _].
      apply andb_true_iff in Hm as [_ Hm]. exact Hm. }
    apply startswith_app in Hs as [post Hpost].
    assert (Htext : text = firstn i text ++ keyword ++ post)
      by (rewrite <- Hpost; symmetry; apply firstn_skipn).
    assert (Hlen : length (firstn i text) = i).
    { apply firstn_length_le.
      destruct (Nat.le_gt_cases i (length text)) as [H|H]; [exact H|].
      rewrite skipn_all2 in Hpost by lia. destruct keyword; [congruence | discriminate]. }
    exists (firstn i text), post. split; [exact Htext|].
    rewrite Htext in Hm. rewrite <- Hlen in Hm at 2.
    rewrite match_at_seam in Hm by assumption.
    apply andb_true_iff in Hm as [H1 H2].
    split; apply negb_true_iff; assumption.
  - intros (pre & post & -> & Hpre & Hpost).
    exists (length pre). split.
    + apply in_seq. rewrite !length_app. lia.
    + rewrite match_at_seam by assumption. rewrite Hpre, Hpost. reflexivity.
Qed.

Lemma keyword_letters (keyword : str) :
  In keyword disallowed_keywords ->
  keyword <> [] /\ first_word keyword = true /\ last_word keyword = true.
Proof.
  intros H. unfold disallowed_keywords in H. simpl in H.
  repeat (destruct H as [<- | H]; [
    split; [discriminate|]; split; cbn; rewrite isword_ascii; reflexivity |]).
  contradiction.
Qed.

Lemma re_search_keyword (keyword text : str) :
  In keyword disallowed_keywords ->
  re_search_word keyword text = true <-> whole_word keyword text.
Proof.
  intros H. destruct (keyword_letters _ H) as (Hne & Hf & Hl).
  apply re_search_word_spec; assumption.
Qed.

End TextFacts.

(** ** The validation gate *)

Lemma find_first {A} (f : A -> bool) (l : list A) (x : A) :
  find f l = Some x ->
  exists before after,
    l = before ++ x :: after /\ f x = true
    /\ Forall (fun y => f y = false) before.
Proof.
  induction l as [|a l IH]; simpl; [discriminate|].
  destruct (f a) eqn:Ha.
  - intros [= <-]. exists [], l. auto.
  - intros H. destruct (IH H) as (before & after & -> & Hx & Hb).
    exists (a :: before), after. auto.
Qed.

(** Case analysis on the keyword scan of the goal. *)
Ltac case_find x H :=
  match goal with
  | |- context [find ?f ?l] => destruct (find f l) as [x|] eqn:H
  end.

Section ValidatorFacts.
Context {U : PyUnicode}.

Lemma validate_query_prefix (query_string : str) :
  allowed_prefix (normalize query_string) = false ->
  validate_query query_string = Some (error_outcome prefix_restriction).
Proof. intros H. unfold validate_query. rewrite H. reflexivity. Qed.

Lemma validate_query_keyword (query_string keyword : str) :
  allowed_prefix (normalize query_string) = true ->
  In keyword disallowed_keywords ->
  whole_word keyword (normalize query_string) ->
  exists first,
    first_whole_word first (normalize query_string)
    /\ validate_query query_string
       = Some (error_outcome (keyword_restriction first)).
Proof.
  intros Hp Hin Hw. unfold validate_query. rewrite Hp. cbn [negb].
  case_find hit Hfind.
  - exists hit. split; [|reflexivity].
    destruct (find_first _ _ _ Hfind) as (before & after & Hl & Hm & Hb).
    exists before, after. split; [exact Hl|]. split.
    + apply re_search_keyword; [|exact Hm].
      rewrite Hl. apply in_elt.
    + rewrite Forall_forall in *. intros k Hk Hkw.
      apply re_search_keyword in Hkw.
      * rewrite (Hb k Hk) in Hkw. discriminate.
      * rewrite Hl. apply in_or_app. left. exact Hk.
  - exfalso. apply (re_search_keyword _ _ Hin) in Hw.
    pose proof (find_none _ _ Hfind _ Hin) as Hn. simpl in Hn.
    rewrite Hw in Hn. discriminate.
Qed.

Lemma validate_query_admits (query_string : str) :
  allowed_prefix (normalize query_string) = true ->
  (forall keyword, In keyword disallowed_keywords ->
                   ~ whole_word keyword (normalize query_string)) ->
  validate_query query_string = None.
Proof.
  intros Hp Hno. unfold validate_query. rewrite Hp. cbn [negb].
  case_find hit Hfind; [|reflexivity].
  exfalso. apply find_some in Hfind as [Hin Hm].
  apply (Hno hit Hin). apply re_search_keyword; assumption.
Qed.

(** A rejection is always the dictionary with the single key [error]. *)
Lemma validate_query_rejection (query_string : str) (rejection : dict pyval) :
  validate_query query_string = Some rejection ->
  exists message, rejection = error_outcome message.
Proof.
  unfold validate_query.
  destruct (negb _); [intros [= <-]; eauto|].
  case_find hit Hfind; [intros [= <-]; eauto | discriminate].
Qed.

End ValidatorFacts.

Lemma blank_normalizes_to_empty `{PyUnicode} (query_string : str) :
  forallb isspace query_string = true -> normalize query_string = [].
Proof.
  intros Hs. unfold normalize. rewrite (strip_all_space _ Hs). reflexivity.
Qed.

(** C1 (as amended).  A query whose normalised text holds a denylisted keyword
    as a whole word is always rejected.  The reason names the first keyword of
    the list order that occurs as a whole word when the text passes the prefix
    test, which the code runs first; when it does not, the reason is the
    prefix restriction. *)
Theorem denylisted_keyword_rejected `{PyUnicode} (query_string keyword : str) :
  In keyword disallowed_keywords ->
  whole_word keyword (normalize query_string) ->
  (allowed_prefix (normalize query_string) = false
   /\ validate_query query_string = Some (error_outcome prefix_restriction))
  \/ (allowed_prefix (normalize query_string) = true
      /\ exists first,
           first_whole_word first (normalize query_string)
           /\ validate_query query_string
              = Some (error_outcome (keyword_restriction first))).
Proof.
  intros Hin Hw.
  destruct (allowed_prefix (normalize query_string)) eqn:Hp.
  - right. split; [reflexivity|].
    apply validate_query_keyword with (keyword := keyword); assumption.
  - left. split; [reflexivity|]. apply validate_query_prefix. exact Hp.
Qed.

(** C2.  A query whose normalised text starts with one of the five prefixes,
    or is exactly SHOW DATABASES, and holds no denylisted keyword as a whole
    word, is admitted. *)
Theorem read_query_admitted `{PyUnicode} (query_string : str) :
  (exists prefix,
      In prefix (map lit ["SELECT "; "WITH "; "SHOW "; "DESCRIBE "; "EXPLAIN "]%string)
      /\ startswith (normalize query_string) prefix = true)
  \/ normalize query_string = lit "SHOW DATABASES" ->
  (forall keyword, In keyword disallowed_keywords ->
                   ~ whole_word keyword (normalize query_string)) ->
  validate_query query_string = None.
Proof.
  intros Hp Hno. apply validate_query_admits; [|exact Hno].
  unfold allowed_prefix. destruct Hp as [[prefix [Hin Hs]] | Heq].
  - simpl in Hin.
    repeat (destruct Hin as [<- | Hin];
            [rewrite Hs; rewrite ?orb_true_r; reflexivity|]).
    contradiction.
  - rewrite Heq. reflexivity.
Qed.

(** C6 (as amended).  An empty or whitespace-only query is rejected, and the
    reason is the prefix restriction: the code has no separate test for an
    empty query. *)
Theorem blank_query_rejected `{PyUnicode} (query_string : str) :
  forallb isspace query_string = true ->
  validate_query query_string = Some (error_outcome prefix_restriction).
Proof.
  intros Hs. apply validate_query_prefix.
  rewrite (blank_normalizes_to_empty _ Hs). reflexivity.
Qed.

(** ** Reading a status response *)

Lemma get_state_cases (r : get_query_execution_output) :
  (exists status, get_state r = Ok status /\ state_of r = Some status)
  \/ (exists m, get_state r = Raise m /\ state_of r = None).
Proof.
  unfold get_state, state_of, status_of.
  destruct (QueryExecution r) as [query_execution|]; simpl; [|right; eauto].
  destruct (Status query_execution) as [status|]; simpl; [|right; eauto].
  destruct (State status) as [state|]; simpl; [left|right]; eauto.
Qed.

Lemma get_state_ok (r : get_query_execution_output) (status : str) :
  get_state r = Ok status <-> state_of r = Some status.
Proof.
  destruct (get_state_cases r) as [(s & -> & ->) | (m & -> & ->)];
    split; intros Heq; try discriminate; injection Heq as ->; reflexivity.
Qed.

Lemma get_state_raise (r : get_query_execution_output) (m : str) :
  get_state r = Raise m -> state_of r = None.
Proof.
  destruct (get_state_cases r) as [(s & -> & _) | (m' & _ & ->)];
    [discriminate | reflexivity].
Qed.

(** ** The poll loop *)

Section PollFacts.
Context {E : Type} (session : athena E).

Lemma poll_settled fuel id status rc (w : world E) :
  in_progress status = false ->
  poll session fuel id status rc w = (Ok (status, rc), w).
Proof.
  intros H. destruct fuel; simpl; [reflexivity|]. rewrite H. reflexivity.
Qed.

Lemma poll_spent fuel id status rc (w : world E) :
  (max_retries <= rc)%Z ->
  poll session fuel id status rc w = (Ok (status, rc), w).
Proof.
  intros H. destruct fuel; simpl; [reflexivity|].
  replace (rc <? max_retries)%Z with false by (symmetry; apply Z.ltb_ge; exact H).
  rewrite andb_false_r. reflexivity.
Qed.

(** One turn of the loop. *)
Lemma poll_step fuel id status rc (w : world E) :
  in_progress status = true -> (rc < max_retries)%Z ->
  poll session (S fuel) id status rc w
  = match get_query_execution session id (engine_state w) with
    | (Ok r, e) =>
        let w1 := {| engine_state := e; trace := check_events id r ++ trace w |} in
        match get_state r with
        | Ok status1 => poll session fuel id status1 (rc + 1) w1
        | Raise m => (Raise m, w1)
        end
    | (Raise m, e) =>
        (Raise m,
         {| engine_state := e; trace := GetQueryExecution id (Raise m) :: trace w |})
    end.
Proof.
  intros Hs Hrc. simpl. rewrite Hs.
  replace (rc <? max_retries)%Z with true by (symmetry; apply Z.ltb_lt; exact Hrc).
  simpl. unfold bind, call, lift.
  destruct (get_query_execution session id (engine_state w)) as [[r|m] e];
    [|reflexivity].
  cbn zeta. unfold check_events, pending.
  destruct (get_state_cases r) as [(status1 & -> & ->) | (m & -> & ->)];
    [|reflexivity].
  destruct (in_progress status1); reflexivity.
Qed.

(** The fuel is not what ends the loop: with at least as many units as
    there are retries left, one more changes nothing. *)
Lemma poll_fuel_succ fuel : forall id status rc (w : world E),
  (max_retries - rc <= Z.of_nat fuel)%Z ->
  poll session (S fuel) id status rc w = poll session fuel id status rc w.
Proof.
  induction fuel as [|fuel IH]; intros id status rc w Hf.
  - rewrite !poll_spent by lia. reflexivity.
  - destruct (in_progress status) eqn:Hs; [|rewrite !poll_settled by exact Hs; reflexivity].
    destruct (Z.lt_ge_cases rc max_retries) as [Hrc|Hrc];
      [|rewrite !poll_spent by exact Hrc; reflexivity].
    rewrite (poll_step (S fuel)), (poll_step fuel) by assumption.
    destruct (get_query_execution session id (engine_state w)) as [[r|m] e];
      [|reflexivity].
    cbn zeta. destruct (get_state r) as [status1|m]; [|reflexivity].
    apply IH. lia.
Qed.

Lemma poll_fuel fuel id status rc (w : world E) :
  (Z.to_nat (max_retries - rc) <= fuel)%nat ->
  poll session fuel id status rc w
  = poll session (Z.to_nat (max_retries - rc)) id status rc w.
Proof.
  intros H. induction H as [|fuel H IH]; [reflexivity|].
  rewrite poll_fuel_succ by lia. exact IH.
Qed.

(** The runs of the loop, from a status that is in progress and with
    retries left. *)
Lemma poll_run fuel : forall id status rc (w : world E) res w',
  in_progress status = true -> (rc < max_retries)%Z -> fuel <> 0 ->
  poll session fuel id status rc w = (res, w') ->
  exists rs,
    Forall (fun r => pending r = true) rs
    /\ (rc + Z.of_nat (length rs) < max_retries)%Z
    /\ length rs < fuel
    /\ poll_ends fuel id rc w rs res w'.
Proof.
  induction fuel as [|fuel IH]; intros id status rc w res w' Hs Hrc Hf Hrun;
    [congruence|].
  rewrite poll_step in Hrun by assumption.
  destruct (get_query_execution session id (engine_state w)) as [[r|m] e].
  - cbn zeta in Hrun.
    set (w1 := {| engine_state := e; trace := check_events id r ++ trace w |}) in *.
    destruct (get_state_cases r) as [(status1 & Hget & Hstate) | (m & Hget & Hstate)];
      rewrite Hget in Hrun.
    + assert (Hstop : poll session fuel id status1 (rc + 1) w1
                      = (Ok (status1, (rc + 1)%Z), w1) ->
                      in_progress status1 = false
                      \/ (rc + 1 = max_retries)%Z \/ 1 = S fuel ->
                      exists rs,
                        Forall (fun r => pending r = true) rs
                        /\ (rc + Z.of_nat (length rs) < max_retries)%Z
                        /\ length rs < S fuel
                        /\ poll_ends (S fuel) id rc w rs res w').
      { intros Heq Hexit. rewrite Heq in Hrun. injection Hrun as <- <-.
        exists []. split; [constructor|]. split; [simpl; lia|]. split; [simpl; lia|].
        right. right. exists r, status1. simpl. rewrite Z.add_0_r.
        split; [reflexivity|]. split; [exact Hstate|].
        split; [reflexivity|]. exact Hexit. }
      destruct (in_progress status1) eqn:Hp;
        [|apply Hstop; [apply poll_settled; exact Hp | left; reflexivity]].
      destruct fuel as [|fuel']; [apply Hstop; [reflexivity | right; right; reflexivity]|].
      destruct (Z.lt_ge_cases (rc + 1) max_retries) as [Hrc1|Hrc1];
        [|apply Hstop; [apply poll_spent; exact Hrc1 | right; left; lia]].
      clear Hstop.
      destruct (IH id status1 (rc + 1)%Z w1 res w' Hp Hrc1 ltac:(congruence) Hrun)
        as (rs & Hall & Hlen & Hfuel & Hcases).
      exists (r :: rs).
      split; [constructor; [unfold pending; rewrite Hstate; exact Hp | assumption]|].
      split; [simpl length; lia|]. split; [simpl; lia|].
      destruct Hcases as [(m & -> & Ht) | [(r' & m & -> & Hm & Ht)
                                          | (r' & status' & -> & Hst & Ht & Hexit)]].
      * left. exists m. split; [reflexivity|]. rewrite Ht. subst w1. simpl.
        rewrite <- app_assoc. reflexivity.
      * right. left. exists r', m. split; [reflexivity|]. split; [exact Hm|].
        rewrite Ht. subst w1. simpl. rewrite <- app_assoc. reflexivity.
      * right. right. exists r', status'.
        split; [f_equal; f_equal; simpl length; lia|]. split; [exact Hst|].
        split.
        -- rewrite Ht. subst w1. simpl. rewrite <- app_assoc. reflexivity.
        -- simpl length.
           destruct Hexit as [Hx|[Hx|Hx]];
             [left; exact Hx | right; left; lia | right; right; lia].
    + injection Hrun as <- <-. exists []. split; [constructor|].
      split; [simpl; lia|]. split; [simpl; lia|].
      right. left. exists r, m. split; [reflexivity|]. split; [exact Hget|].
      reflexivity.
  - injection Hrun as <- <-. exists []. split; [constructor|].
    split; [simpl; lia|]. split; [simpl; lia|].
    left. exists m. split; reflexivity.
Qed.

End PollFacts.

(** ** Submissions *)

Section SubmitFacts.
Context {U : PyUnicode} {E : Type} (session : athena E).

Lemma execute_rejected self q wg ol wait (w : world E) rejection :
  validate_query q = Some rejection ->
  execute_athena_query session self q wg ol wait w = (rejection, w).
Proof.
  intros H. unfold execute_athena_query, try_except. rewrite H. reflexivity.
Qed.

(** Every waiting submission of an admitted query is one of the runs of
    [waited]. *)
Lemma execute_waited self q wg ol (e : E) :
  validate_query q = None ->
  waited q (py_or wg (athena_workgroup self))
           (py_or ol (athena_output_location self))
         (fst (execute_athena_query session self q wg ol true (fresh e)))
         (trace (snd (execute_athena_query session self q wg ol true (fresh e)))).
Proof.
  intros Hval. unfold execute_athena_query, try_except. rewrite Hval.
  set (wg' := py_or wg (athena_workgroup self)).
  set (ol' := py_or ol (athena_output_location self)).
  remember (Z.to_nat max_retries) as fuel eqn:Hfuel.
  unfold bind, call, lift, fresh. cbn [engine_state trace].
  destruct (client session e) as [[[]|m] e1]; cbn [engine_state trace];
    [|apply waited_no_client].
  destruct (start_query_execution session q wg' ol' e1) as [[[[id|]]|m] e2];
    cbn [engine_state trace QueryExecutionId getitem];
    [|apply waited_no_id|apply waited_no_start].
  match goal with
  | |- context [poll session fuel id ?s ?rc ?w] =>
      destruct (poll session fuel id s rc w) as [res w3] eqn:Hpoll
  end.
  apply poll_run in Hpoll;
    [|reflexivity | reflexivity | subst fuel; discriminate].
  destruct Hpoll as (rs & Hall & _ & Hlen & Hcases).
  assert (Hlen' : length rs < 100) by (subst fuel; exact Hlen).
  cbn [trace] in Hcases.
  destruct Hcases as [(m & -> & Ht) | [(r & m & -> & Hm & Ht)
                                      | (r & status & -> & Hst & Ht & Hexit)]].
  - cbn [fst snd]. rewrite Ht. apply waited_poll_raised; assumption.
  - cbn [fst snd]. rewrite Ht. apply (waited_no_state q wg' ol' id rs r m);
      assumption.
  - cbn [fst].
    destruct (str_eqb status (lit "SUCCEEDED")) eqn:Hs.
    + apply str_eqb_eq in Hs. subst status.
      destruct (get_query_results session id None (engine_state w3))
        as [[results_response|m] e4]; unfold ret; cbn [fst snd trace];
        rewrite Ht.
      * apply (waited_succeeded q wg' ol' id rs r (Ok results_response));
          assumption.
      * apply (waited_succeeded q wg' ol' id rs r (Raise m)); assumption.
    + unfold ret. cbn [fst snd]. rewrite Ht.
      apply (waited_settled q wg' ol' id rs r status); try assumption.
      * destruct Hexit as [Hx|[Hx|Hx]]; [left; exact Hx | right | right].
        -- unfold max_retries in Hx. lia.
        -- subst fuel. unfold max_retries in Hx. simpl in Hx. lia.
      * intros Heq. apply str_eqb_eq in Heq. rewrite Heq in Hs. discriminate.
Qed.

End SubmitFacts.

(** ** Traces of the poll loop *)

Lemma poll_events_snoc id rs r :
  poll_events id (rs ++ [r]) = check_events id r ++ poll_events id rs.
Proof.
  induction rs as [|r' rs IH]; simpl.
  - rewrite app_nil_r. reflexivity.
  - rewrite IH, app_assoc. reflexivity.
Qed.

Lemma filter_checks_poll_events id rs :
  filter is_status_check (poll_events id rs)
  = rev (map (fun r => GetQueryExecution id (Ok r)) rs).
Proof.
  induction rs as [|r rs IH]; simpl; [reflexivity|].
  rewrite filter_app, IH. f_equal.
  unfold check_events. destruct (pending r); reflexivity.
Qed.

Lemma status_checks_app t1 t2 :
  status_checks (t1 ++ t2) = status_checks t1 + status_checks t2.
Proof. unfold status_checks. rewrite filter_app, length_app. reflexivity. Qed.

Lemma status_checks_cons ev t :
  status_checks (ev :: t)
  = (if is_status_check ev then 1 else 0) + status_checks t.
Proof. unfold status_checks. simpl. destruct (is_status_check ev); reflexivity. Qed.

Lemma status_checks_poll_events id rs :
  status_checks (poll_events id rs) = length rs.
Proof.
  unfold status_checks.
  rewrite filter_checks_poll_events, length_rev, length_map. reflexivity.
Qed.

Lemma last_status_check_events id r t :
  last_status (check_events id r ++ t) = state_of r.
Proof. unfold check_events. destruct (pending r); reflexivity. Qed.

Lemma last_status_polled id rs r t :
  last_status (poll_events id (rs ++ [r]) ++ t) = state_of r.
Proof.
  rewrite poll_events_snoc, <- app_assoc. apply last_status_check_events.
Qed.

Lemma earlier_checks_in_progress id rs :
  Forall (fun r => pending r = true) rs ->
  Forall answered_in_progress
         (rev (map (fun r => GetQueryExecution id (Ok r)) rs)).
Proof.
  intros H. apply Forall_rev. apply Forall_map.
  eapply Forall_impl; [|exact H]. intros r Hr. exact Hr.
Qed.

(** Case analysis on the runs of a waiting submission. *)
Ltac waited_cases H :=
  destruct H as [?m | ?m | | ?id ?rs ?m ?Hall ?Hlen
                 | ?id ?rs ?r ?m ?Hall ?Hlen ?Hget
                 | ?id ?rs ?r ?status ?Hall ?Hlen ?Hst ?Hexit ?Hne
                 | ?id ?rs ?r ?res ?Hall ?Hlen ?Hs].

(** ** The submission path *)

(** C3.  A query the validator rejects is answered with the rejection, a
    dictionary with the single key [error], and the world is left as it was:
    no event is added to the trace, so neither the start-query operation nor
    any other engine operation is invoked. *)
Theorem rejected_query_never_submitted `{PyUnicode} {E : Type}
    (session : athena E) (self : querier) (query_string : str)
    (workgroup output_location : option str) (wait_for_completion : bool)
    (w : world E) (rejection : dict pyval) :
  validate_query query_string = Some rejection ->
  exists message,
    rejection = error_outcome message
    /\ execute_athena_query session self query_string workgroup output_location
         wait_for_completion w
       = (error_outcome message, w)
    /\ filter is_start
         (trace (snd (execute_athena_query session self query_string workgroup
                        output_location wait_for_completion w)))
       = filter is_start (trace w).
Proof.
  intros Hrej. destruct (validate_query_rejection _ _ Hrej) as [message ->].
  exists message. rewrite (execute_rejected session _ _ _ _ _ _ _ Hrej).
  repeat split.
Qed.

(** C9.  A waiting submission makes at most 100 status checks; each check
    but the most recent one was answered QUEUED or RUNNING, so the loop stops
    at the first other answer; when the most recent answer is still QUEUED or
    RUNNING, the budget of 100 checks is used up and the outcome is the
    submission with that status, not an error.  The loop ends by its own
    condition: fuel beyond 100 units does not change its result. *)
Theorem poll_loop_bounded `{PyUnicode} {E : Type}
    (session : athena E) (self : querier) (query_string : str)
    (workgroup output_location : option str) (e : E) :
  let run := execute_athena_query session self query_string workgroup
               output_location true (fresh e) in
  let t := trace (snd run) in
  status_checks t <= 100
  /\ Forall answered_in_progress (tl (filter is_status_check t))
  /\ (forall status,
        last_status t = Some status -> in_progress status = true ->
        status_checks t = 100
        /\ exists id,
             fst run
             = submitted (py_or output_location (athena_output_location self)) id
               ++ [(lit "Status", PStr status)])
  /\ (forall fuel id (w : world E),
        100 <= fuel ->
        poll session fuel id (lit "RUNNING") 0 w
        = poll session 100 id (lit "RUNNING") 0 w).
Proof.
  intros run t. subst t run.
  assert (Hfuel : forall fuel id (w : world E),
             100 <= fuel ->
             poll session fuel id (lit "RUNNING") 0 w
             = poll session 100 id (lit "RUNNING") 0 w).
  { intros fuel id w Hf. apply (poll_fuel session fuel id _ 0%Z w). exact Hf. }
  destruct (validate_query query_string) as [rejection|] eqn:Hval.
  { rewrite (execute_rejected session _ _ _ _ _ _ _ Hval).
    cbn [fst snd fresh trace].
    split; [unfold status_checks; simpl; lia|]. split; [constructor|].
    split; [intros status Hs; discriminate | exact Hfuel]. }
  pose proof (execute_waited session self query_string workgroup
                output_location e Hval) as Hw.
  remember (fst (execute_athena_query session self query_string workgroup
                   output_location true (fresh e))) as out.
  remember (trace (snd (execute_athena_query session self query_string
                          workgroup output_location true (fresh e)))) as t.
  clear Heqout Heqt.
  split; [|split; [|split; [|exact Hfuel]]].
  - waited_cases Hw;
      unfold started, started_without_id;
      repeat rewrite ?status_checks_cons, ?status_checks_app,
        ?status_checks_poll_events, ?length_app;
      cbn [is_status_check length]; change (status_checks []) with 0; lia.
  - waited_cases Hw;
      unfold started, started_without_id; cbn [filter is_status_check tl];
      rewrite ?filter_app, ?filter_checks_poll_events; cbn [filter is_status_check];
      rewrite ?app_nil_r; try constructor;
      rewrite ?map_app, ?rev_app_distr; cbn [map rev app tl];
      apply earlier_checks_in_progress; assumption.
  - intros status' Hlast Hprog.
    waited_cases Hw; try discriminate.
    + rewrite last_status_polled, (get_state_raise _ _ Hget) in Hlast.
      discriminate.
    + rewrite last_status_polled, Hst in Hlast. injection Hlast as <-.
      destruct Hexit as [Hstop | Hlen99]; [congruence|]. split.
      * unfold started.
        repeat rewrite ?status_checks_cons, ?status_checks_app,
          ?status_checks_poll_events, ?length_app.
        cbn [is_status_check length]. change (status_checks []) with 0. lia.
      * exists id. reflexivity.
    + cbn [last_status] in Hlast. rewrite last_status_polled, Hs in Hlast.
      injection Hlast as <-. discriminate.
Qed.

(** C5 (as amended).  When the last status check of a waiting submission
    answered FAILED, the submission returns, without raising, the dictionary
    of the execution id, the output location and the status FAILED, and
    nothing else: this path does not read the engine's state-change
    reason. *)
Theorem failed_query_outcome `{PyUnicode} {E : Type}
    (session : athena E) (self : querier) (query_string : str)
    (workgroup output_location : option str) (e : E) :
  last_status
    (trace (snd (execute_athena_query session self query_string workgroup
                   output_location true (fresh e))))
  = Some (lit "FAILED") ->
  exists id,
    fst (execute_athena_query session self query_string workgroup
           output_location true (fresh e))
    = submitted (py_or output_location (athena_output_location self)) id
      ++ [(lit "Status", PStr (lit "FAILED"))].
Proof.
  destruct (validate_query query_string) as [rejection|] eqn:Hval.
  { rewrite (execute_rejected session _ _ _ _ _ _ _ Hval). discriminate. }
  pose proof (execute_waited session self query_string workgroup
                output_location e Hval) as Hw.
  remember (fst (execute_athena_query session self query_string workgroup
                   output_location true (fresh e))) as out.
  remember (trace (snd (execute_athena_query session self query_string
                          workgroup output_location true (fresh e)))) as t.
  clear Heqout Heqt. intros Hlast.
  waited_cases Hw; try discriminate.
  - rewrite last_status_polled, (get_state_raise _ _ Hget) in Hlast.
    discriminate.
  - rewrite last_status_polled, Hst in Hlast. injection Hlast as ->.
    exists id. reflexivity.
  - cbn [last_status] in Hlast. rewrite last_status_polled in Hlast.
    rewrite Hs in Hlast. discriminate.
Qed.

(** C4 (as amended).  When the last status check of a waiting submission
    answered SUCCEEDED, the submission calls get-results, without a result
    limit, as its last engine operation; if the call answers, the outcome
    holds that answer as it came, under the key [Results], next to the
    execution id, the output location and the status; if the call raises,
    the outcome is the error of that exception. *)
Theorem succeeded_query_outcome `{PyUnicode} {E : Type}
    (session : athena E) (self : querier) (query_string : str)
    (workgroup output_location : option str) (e : E) :
  last_status
    (trace (snd (execute_athena_query session self query_string workgroup
                   output_location true (fresh e))))
  = Some (lit "SUCCEEDED") ->
  exists id res,
    hd_error
      (trace (snd (execute_athena_query session self query_string workgroup
                     output_location true (fresh e))))
    = Some (GetQueryResults id None res)
    /\ fst (execute_athena_query session self query_string workgroup
              output_location true (fresh e))
       = match res with
         | Ok results_response =>
             submitted (py_or output_location (athena_output_location self)) id
             ++ [(lit "Status", PStr (lit "SUCCEEDED"));
                 (lit "Results", PResults results_response)]
         | Raise m => error_outcome m
         end.
Proof.
  destruct (validate_query query_string) as [rejection|] eqn:Hval.
  { rewrite (execute_rejected session _ _ _ _ _ _ _ Hval). discriminate. }
  pose proof (execute_waited session self query_string workgroup
                output_location e Hval) as Hw.
  remember (fst (execute_athena_query session self query_string workgroup
                   output_location true (fresh e))) as out.
  remember (trace (snd (execute_athena_query session self query_string
                          workgroup output_location true (fresh e)))) as t.
  clear Heqout Heqt. intros Hlast.
  waited_cases Hw; try discriminate.
  - rewrite last_status_polled, (get_state_raise _ _ Hget) in Hlast.
    discriminate.
  - rewrite last_status_polled, Hst in Hlast. injection Hlast as Heq.
    contradiction.
  - exists id, res. split; reflexivity.
Qed.

(** ** Dictionaries *)

Section DictFacts.
Context {V : Type}.

Lemma str_eqb_neq (a b : str) : str_eqb a b = false <-> a <> b.
Proof.
  split.
  - intros H Heq. apply str_eqb_eq in Heq. congruence.
  - intros H. destruct (str_eqb a b) eqn:Hab; [|reflexivity].
    apply str_eqb_eq in Hab. contradiction.
Qed.

Lemma dict_get_set (d : dict V) (k k' : str) (v : V) :
  dict_get (dict_set d k v) k'
  = if str_eqb k k' then Some v else dict_get d k'.
Proof.
  induction d as [|[k0 v0] d IH]; simpl; [reflexivity|].
  destruct (str_eqb k0 k) eqn:H0; simpl.
  - apply str_eqb_eq in H0. subst k0.
    destruct (str_eqb k k'); reflexivity.
  - destruct (str_eqb k0 k') eqn:H1; [|exact IH].
    apply str_eqb_eq in H1. subst k0. apply str_eqb_neq in H0.
    replace (str_eqb k k') with false; [reflexivity|].
    symmetry. apply str_eqb_neq. congruence.
Qed.

Lemma dict_of_fold (pairs : list (str * V)) :
  dict_of pairs = fold_left bind_pair pairs [].
Proof. reflexivity. Qed.

(** Later pairs of other keys leave a binding alone. *)
Lemma dict_get_fold_other (pairs : list (str * V)) (d : dict V) (k : str) :
  Forall (fun kv => fst kv <> k) pairs ->
  dict_get (fold_left bind_pair pairs d) k = dict_get d k.
Proof.
  revert d; induction pairs as [|[k0 v0] pairs IH]; intros d H; simpl;
    [reflexivity|].
  inversion H as [|? ? Hk Hrest]; subst.
  rewrite IH by exact Hrest. unfold bind_pair. rewrite dict_get_set. simpl.
  apply str_eqb_neq in Hk. simpl in Hk. rewrite Hk. reflexivity.
Qed.

(** [dict(pairs)[k]] is the value of the last pair with the key [k]. *)
Lemma dict_of_last (pairs : list (str * V)) (i : nat) (k : str) (v : V) :
  nth_error pairs i = Some (k, v) ->
  (forall j kv, i < j -> nth_error pairs j = Some kv -> fst kv <> k) ->
  dict_get (dict_of pairs) k = Some v.
Proof.
  intros Hi Hlater.
  destruct (nth_error_split _ _ Hi) as (l1 & l2 & -> & Hlen).
  rewrite dict_of_fold, fold_left_app. simpl.
  rewrite dict_get_fold_other.
  - unfold bind_pair. rewrite dict_get_set. simpl.
    rewrite str_eqb_refl. reflexivity.
  - apply Forall_forall. intros kv Hin.
    destruct (In_nth_error _ _ Hin) as [p Hp].
    apply (Hlater (S (i + p)) kv); [lia|].
    rewrite nth_error_app2 by lia.
    replace (S (i + p) - length l1) with (S p) by lia. exact Hp.
Qed.

(** The keys of [dict(pairs)] are the keys of the pairs. *)
Lemma dict_mem_fold (pairs : list (str * V)) (d : dict V) (k : str) :
  dict_mem (fold_left bind_pair pairs d) k = true
  <-> In k (map fst pairs) \/ dict_mem d k = true.
Proof.
  revert d; induction pairs as [|[k0 v0] pairs IH]; intros d; simpl.
  - tauto.
  - rewrite IH. unfold bind_pair, dict_mem. rewrite dict_get_set. simpl.
    destruct (str_eqb k0 k) eqn:Hk.
    + apply str_eqb_eq in Hk. tauto.
    + apply str_eqb_neq in Hk. tauto.
Qed.

Lemma dict_mem_of (pairs : list (str * V)) (k : str) :
  dict_mem (dict_of pairs) k = true <-> In k (map fst pairs).
Proof.
  rewrite dict_of_fold, dict_mem_fold. unfold dict_mem. simpl.
  split; [intros [H|H]; [exact H | discriminate] | auto].
Qed.

End DictFacts.

(** ** The normaliser *)

Lemma map_fst_combine {A B} (l : list A) (l' : list B) :
  map fst (combine l l') = firstn (length l') l.
Proof.
  revert l'; induction l as [|a l IH]; intros [|b l']; simpl;
    try reflexivity.
  rewrite IH. reflexivity.
Qed.

Lemma skipn_nth_error_cons {A} (l : list A) (k : nat) (x : A) :
  nth_error l k = Some x -> skipn k l = x :: skipn (S k) l.
Proof.
  revert l; induction k as [|k IH]; intros [|a l]; simpl; try discriminate.
  - intros [= ->]. reflexivity.
  - intros H. apply IH. exact H.
Qed.

(** The loop over the columns zips the names with the cells, by index,
    when the row has a data array. *)
Lemma build_row_from (column_info : list column) (r : row)
    (cells : list datum) :
  Data r = Some cells ->
  forall k data,
    fold_left
      (fun acc ic =>
         and_then acc (fun data =>
         and_then (getitem (Data r) "Data") (fun cells =>
           match nth_error cells (fst ic) with
           | Some cell =>
               Ok (dict_set data (col_Name (snd ic))
                     (get_default (VarCharValue cell) []))
           | None => Ok data
           end)))
      (combine (seq k (length column_info)) column_info) (Ok data)
    = Ok (fold_left bind_pair
            (combine (map col_Name column_info)
                     (map cell_text (skipn k cells)))
            data).
Proof.
  intros Hdata. rewrite Hdata.
  induction column_info as [|c cs IH]; intros k data; [reflexivity|].
  cbn [length seq combine fold_left fst snd map and_then getitem].
  destruct (nth_error cells k) as [cell|] eqn:Hk.
  - rewrite (skipn_nth_error_cons _ _ _ Hk).
    cbn [map combine fold_left]. rewrite IH. reflexivity.
  - rewrite IH. apply nth_error_None in Hk.
    rewrite (skipn_all2 (n := k)), (skipn_all2 (n := S k)) by lia.
    cbn [map combine]. destruct (map col_Name cs); reflexivity.
Qed.

(** Once the loop over the columns has raised, it stays raised. *)
Lemma fold_left_raised {A B} (f : A -> B -> outcome A) (l : list B) (m : str) :
  fold_left (fun acc x => and_then acc (fun a => f a x)) l (Raise m) = Raise m.
Proof. induction l as [|x l IH]; simpl; [reflexivity | exact IH]. Qed.

Lemma build_row_zip (column_info : list column) (r : row) (cells : list datum) :
  Data r = Some cells ->
  build_row column_info r
  = Ok (dict_of (combine (map col_Name column_info) (map cell_text cells))).
Proof.
  intros Hdata. unfold build_row, enumerate.
  rewrite (build_row_from _ _ _ Hdata). reflexivity.
Qed.

(** A row without a data array fails at the first column. *)
Lemma build_row_no_data (column_info : list column) (r : row) :
  Data r = None ->
  build_row column_info r
  = match column_info with
    | [] => Ok []
    | _ :: _ => Raise (key_error "Data")
    end.
Proof.
  intros Hdata. unfold build_row, enumerate. rewrite Hdata.
  destruct column_info as [|c cs]; [reflexivity|].
  cbn [length seq combine fold_left and_then getitem].
  apply (fold_left_raised
           (fun data (ic : nat * column) =>
              and_then (Raise (key_error "Data")) (fun cells : list datum =>
                match nth_error cells (fst ic) with
                | Some cell =>
                    Ok (dict_set data (col_Name (snd ic))
                          (get_default (VarCharValue cell) []))
                | None => Ok data
                end))).
Qed.

Lemma build_row_spec (column_info : list column) (r : row) :
  build_row column_info r
  = if buildable column_info r then Ok (zipped column_info r)
    else Raise (key_error "Data").
Proof.
  unfold buildable, zipped, cells_of.
  destruct (Data r) as [cells|] eqn:Hdata.
  - apply build_row_zip. exact Hdata.
  - rewrite (build_row_no_data _ _ Hdata).
    destruct column_info; reflexivity.
Qed.

Lemma rows_loop_from (column_info : list column) (raw : list row) :
  forall rows,
    fold_left
      (fun acc r =>
         and_then acc (fun st =>
           let '(header_processed, rows) := st in
           if negb header_processed then Ok (true, rows)
           else
             and_then (build_row column_info r) (fun data =>
               Ok (header_processed, rows ++ [data]))))
      raw (Ok (true, rows))
    = if forallb (buildable column_info) raw
      then Ok (true, rows ++ map (zipped column_info) raw)
      else Raise (key_error "Data").
Proof.
  induction raw as [|r raw IH]; intros rows.
  - simpl. rewrite app_nil_r. reflexivity.
  - cbn [fold_left and_then negb forallb map]. rewrite build_row_spec.
    destruct (buildable column_info r); cbn [and_then andb].
    + rewrite IH, <- app_assoc. reflexivity.
    + apply (fold_left_raised
               (fun (st : bool * list (dict str)) r =>
                  let '(header_processed, rows) := st in
                  if negb header_processed then Ok (true, rows)
                  else
                    and_then (build_row column_info r) (fun data =>
                      Ok (header_processed, rows ++ [data])))).
Qed.

(** The loop over the rows drops the first one and builds the others. *)
Lemma rows_loop_skips_first (column_info : list column) (raw : list row) :
  and_then (rows_loop column_info raw) (fun st => Ok (snd st))
  = if forallb (buildable column_info) (tl raw)
    then Ok (map (zipped column_info) (tl raw))
    else Raise (key_error "Data").
Proof.
  unfold rows_loop. destruct raw as [|h raw]; [reflexivity|].
  cbn [fold_left and_then negb tl]. rewrite rows_loop_from.
  destruct (forallb (buildable column_info) raw); reflexivity.
Qed.

Lemma process_rows_spec (results_response : get_query_results_output)
    (column_info : list column) :
  process_rows results_response column_info
  = if forallb (buildable column_info) (tl (raw_rows results_response))
    then Ok (map (zipped column_info) (tl (raw_rows results_response)))
    else Raise (key_error "Data").
Proof.
  unfold process_rows, raw_rows.
  destruct (ResultSet results_response) as [rs|]; [|reflexivity].
  destruct (Rows rs) as [raw|]; [|reflexivity].
  apply rows_loop_skips_first.
Qed.

(** The keys of a row are the names of the columns that have a cell. *)
Lemma zipped_keys (column_info : list column) (r : row) (name : str) :
  dict_mem (zipped column_info r) name = true
  <-> exists i c,
        i < length (cells_of r) /\ nth_error column_info i = Some c
        /\ col_Name c = name.
Proof.
  unfold zipped.
  rewrite dict_mem_of, map_fst_combine, length_map. split.
  - intros Hin. destruct (In_nth_error _ _ Hin) as [i Hi].
    assert (Hlt : i < length (cells_of r)).
    { destruct (Nat.lt_ge_cases i (length (cells_of r))) as [Hlt|Hge]; [exact Hlt|].
      assert (Hnone : nth_error (firstn (length (cells_of r)) (map col_Name column_info)) i = None).
      { apply nth_error_None. rewrite length_firstn. lia. }
      congruence. }
    rewrite nth_error_firstn in Hi.
    destruct (Nat.ltb_spec i (length (cells_of r))) as [_|Hge]; [|lia].
    rewrite nth_error_map in Hi.
    destruct (nth_error column_info i) as [c|] eqn:Hc; [|discriminate].
    injection Hi as Hi. exists i, c. auto.
  - intros (i & c & Hlt & Hc & Hname).
    apply (nth_error_In _ i). rewrite nth_error_firstn.
    destruct (Nat.ltb_spec i (length (cells_of r))) as [_|Hge]; [|lia].
    rewrite nth_error_map, Hc. simpl. rewrite Hname. reflexivity.
Qed.

Lemma nth_error_combine {A B} (l : list A) (l' : list B) (i : nat) (a : A) (b : B) :
  nth_error (combine l l') i = Some (a, b)
  <-> nth_error l i = Some a /\ nth_error l' i = Some b.
Proof.
  revert l l'; induction i as [|i IH]; intros [|x l] [|y l']; simpl;
    try (split; [discriminate | intros [H1 H2]; discriminate]).
  - split; [intros [= -> ->]; auto | intros [[= ->] [= ->]]; reflexivity].
  - apply IH.
Qed.

(** The value of a row under a name is the text of the last cell whose
    column has that name. *)
Lemma zipped_last (column_info : list column) (r : row) (i : nat)
    (c : column) (cell : datum) :
  nth_error column_info i = Some c ->
  nth_error (cells_of r) i = Some cell ->
  (forall j c', i < j -> j < length (cells_of r) ->
                nth_error column_info j = Some c' -> col_Name c' <> col_Name c) ->
  dict_get (zipped column_info r) (col_Name c) = Some (cell_text cell).
Proof.
  intros Hc Hcell Hlater. unfold zipped.
  apply dict_of_last with (i := i).
  - apply nth_error_combine. rewrite !nth_error_map, Hc, Hcell. auto.
  - intros j [name text] Hij Hj. apply nth_error_combine in Hj as [Hn Ht].
    rewrite nth_error_map in Hn, Ht.
    destruct (nth_error column_info j) as [c'|] eqn:Hc'; [|discriminate].
    destruct (nth_error (cells_of r) j) as [cell'|] eqn:Hcell'; [|discriminate].
    injection Hn as <-. simpl.
    apply (Hlater j c' Hij); [|exact Hc'].
    apply nth_error_Some. congruence.
Qed.

(** A row with a data array is built, as the names zipped with its cells. *)
Lemma build_row_cells (column_info : list column) (r : row)
    (cells : list datum) :
  Data r = Some cells ->
  cells_of r = cells /\ build_row column_info r = Ok (zipped column_info r).
Proof.
  intros Hdata. unfold zipped, cells_of. rewrite Hdata.
  split; [reflexivity | apply build_row_zip; exact Hdata].
Qed.

(** A row that is built is the names zipped with its cells. *)
Lemma build_row_ok (column_info : list column) (r : row) (data : dict str) :
  build_row column_info r = Ok data -> data = zipped column_info r.
Proof.
  rewrite build_row_spec. destruct (buildable column_info r);
    [intros [= <-]; reflexivity | discriminate].
Qed.

(** ** Fetching results *)

Lemma metadata_cases (id : str) (r : get_query_execution_output) :
  match metadata id r with
  | Ok entries =>
      exists status result_configuration,
        state_of r = Some status
        /\ configuration_of r = Some result_configuration
        /\ entries
           = [(lit "QueryExecutionId", PStr id);
              (lit "Status", PStr status);
              (lit "StatisticsDetails",
               match statistics_of r with
               | Some statistics => statistics
               | None => PDict []
               end);
              (lit "OutputLocation",
               PStr (get_default (OutputLocation result_configuration) []))]
             ++ (if str_eqb status (lit "FAILED") then
                   match reason_of r with
                   | Some reason => [(lit "ErrorMessage", PStr reason)]
                   | None => []
                   end
                 else [])
  | Raise m =>
      (state_of r = None /\ get_state r = Raise m)
      \/ (state_of r <> None /\ configuration_of r = None
          /\ m = key_error "ResultConfiguration")
  end.
Proof.
  unfold metadata.
  destruct (get_state_cases r) as [(status & -> & Hst) | (m & -> & Hst)];
    cbn [and_then]; [|left; auto].
  destruct (configuration_of r) as [result_configuration|] eqn:Hrc;
    cbn [and_then getitem].
  - exists status, result_configuration. auto.
  - right. rewrite Hst. split; [discriminate|]. auto.
Qed.


Section FetchFacts.
Context {E : Type} (session : athena E).

(** Every call of [get_athena_query_results] is one of the runs of
    [fetched]. *)
Lemma get_results_fetched id max (e : E) :
  fetched id max
    (fst (get_athena_query_results session id max (fresh e)))
    (trace (snd (get_athena_query_results session id max (fresh e)))).
Proof.
  unfold get_athena_query_results, try_except, bind, call, lift, fresh, ret.
  cbn [engine_state trace].
  destruct (client session e) as [[[]|m] e1]; cbn [engine_state trace fst snd];
    [|apply fetched_no_client].
  destruct (get_query_execution session id e1) as [[r|m] e2];
    cbn [engine_state trace fst snd]; [|apply fetched_no_status].
  destruct (QueryExecution r) as [query_execution|] eqn:Hqe;
    cbn [getitem fst snd trace];
    [|apply fetched_unread; unfold metadata, get_state; rewrite Hqe;
      reflexivity].
  destruct (Status query_execution) as [execution_status|] eqn:Hes;
    cbn [getitem fst snd trace];
    [|apply fetched_unread; unfold metadata, get_state; rewrite Hqe;
      cbn [getitem and_then]; rewrite Hes; reflexivity].
  destruct (State execution_status) as [status|] eqn:Hstate;
    cbn [getitem fst snd trace];
    [|apply fetched_unread; unfold metadata, get_state; rewrite Hqe;
      cbn [getitem and_then]; rewrite Hes; cbn [getitem and_then];
      rewrite Hstate; reflexivity].
  assert (Hget : get_state r = Ok status).
  { unfold get_state. rewrite Hqe. cbn [getitem and_then]. rewrite Hes.
    cbn [getitem and_then]. rewrite Hstate. reflexivity. }
  assert (Hst : state_of r = Some status) by (apply get_state_ok; exact Hget).
  destruct (ResultConfiguration query_execution) as [result_configuration|]
    eqn:Hrc; cbn [getitem fst snd trace];
    [|apply fetched_unread; unfold metadata, configuration_of;
      rewrite Hget, Hqe, Hrc; reflexivity].
  set (entries :=
         [(lit "QueryExecutionId", PStr id);
          (lit "Status", PStr status);
          (lit "StatisticsDetails",
           match Statistics query_execution with
           | Some statistics => statistics
           | None => PDict []
           end);
          (lit "OutputLocation",
           PStr (get_default (OutputLocation result_configuration) []))]
         ++ (if str_eqb status (lit "FAILED") then
               match StateChangeReason execution_status with
               | Some reason => [(lit "ErrorMessage", PStr reason)]
               | None => []
               end
             else [])).
  assert (Hmeta : metadata id r = Ok entries).
  { unfold metadata, configuration_of, statistics_of, reason_of, status_of.
    rewrite Hget, Hqe, Hrc, Hes. reflexivity. }
  destruct (str_eqb status (lit "SUCCEEDED")) eqn:Hs;
    cbn [engine_state trace fst snd].
  - apply str_eqb_eq in Hs. subst status.
    destruct (get_query_results session id (Some max) e2) as [[x|m] e3];
      cbn [engine_state trace fst snd].
    + pose proof (fetched_results id max r entries (Ok x) Hmeta Hst) as Hf.
      cbn beta iota in Hf. unfold normalized in Hf.
      destruct (process_rows x (process_columns x)) as [rows|m];
        cbn [and_then fst snd trace] in *; exact Hf.
    + apply (fetched_results id max r entries (Raise m) Hmeta Hst).
  - replace (if str_eqb status (lit "FAILED")
             then match StateChangeReason execution_status with
                  | Some reason => _
                  | None => _
                  end
             else _) with entries.
    + apply fetched_unfinished; [exact Hmeta|].
      rewrite Hst. intros [= ->]. discriminate.
    + subst entries. destruct (str_eqb status (lit "FAILED")); [|reflexivity].
      destruct (StateChangeReason execution_status); reflexivity.
Qed.

End FetchFacts.

(** The entries of an output that holds the metadata. *)
Lemma metadata_entries id r entries :
  metadata id r = Ok entries ->
  exists status,
    state_of r = Some status
    /\ configuration_of r <> None
    /\ dict_get entries (lit "Status") = Some (PStr status)
    /\ dict_mem entries (lit "ColumnInfo") = false
    /\ dict_mem entries (lit "Rows") = false
    /\ dict_mem entries (lit "RowCount") = false
    /\ dict_get entries (lit "ErrorMessage")
       = if str_eqb status (lit "FAILED")
         then option_map PStr (reason_of r)
         else None.
Proof.
  intros Hmeta. pose proof (metadata_cases id r) as Hc. rewrite Hmeta in Hc.
  destruct Hc as (status & rc & Hst & Hrc & ->). exists status.
  split; [exact Hst|]. split; [congruence|].
  destruct (str_eqb status (lit "FAILED"));
    [destruct (reason_of r)|]; repeat split; reflexivity.
Qed.

(** The entries of an output that holds the metadata and the normalised
    result. *)
Lemma normalized_entries id r entries x fields :
  metadata id r = Ok entries ->
  state_of r = Some (lit "SUCCEEDED") ->
  normalized x = Ok fields ->
  exists rows,
    process_rows x (process_columns x) = Ok rows
    /\ dict_get (entries ++ fields) (lit "Status")
       = Some (PStr (lit "SUCCEEDED"))
    /\ dict_get (entries ++ fields) (lit "ColumnInfo")
       = Some (PList (map column_value (process_columns x)))
    /\ dict_get (entries ++ fields) (lit "Rows")
       = Some (PList (map row_value rows))
    /\ dict_get (entries ++ fields) (lit "RowCount")
       = Some (PInt (Z.of_nat (length rows)))
    /\ dict_get (entries ++ fields) (lit "ErrorMessage") = None.
Proof.
  intros Hmeta Hs Hn. pose proof (metadata_cases id r) as Hc.
  rewrite Hmeta in Hc. destruct Hc as (status & rc & Hst & Hrc & ->).
  rewrite Hs in Hst. injection Hst as <-.
  unfold normalized in Hn.
  destruct (process_rows x (process_columns x)) as [rows|m]; [|discriminate].
  injection Hn as <-. exists rows. repeat split; reflexivity.
Qed.

(** What the normaliser makes of a response, by the rows after the first. *)
Lemma normalized_spec (x : get_query_results_output) :
  normalized x
  = if forallb (buildable (process_columns x)) (tl (raw_rows x))
    then Ok [(lit "ColumnInfo", PList (map column_value (process_columns x)));
             (lit "Rows",
              PList (map row_value
                       (map (zipped (process_columns x)) (tl (raw_rows x)))));
             (lit "RowCount", PInt (Z.of_nat (length (tl (raw_rows x)))))]
    else Raise (key_error "Data").
Proof.
  unfold normalized. rewrite process_rows_spec.
  destruct (forallb (buildable (process_columns x)) (tl (raw_rows x)));
    cbn [and_then]; [|reflexivity].
  rewrite length_map. reflexivity.
Qed.


(** C8 (as amended).  A row that has a data array is built as the
    dictionary of the column names zipped by index with the texts of its
    cells, so its keys are the names of the columns that have a cell and a
    short row gives a short dictionary; a row without a data array raises
    as soon as a column is looked up in it.  The normaliser drops the first
    raw row, whatever it holds.  When every raw row after the first can be
    built, it builds one row for each of them, in order, and [RowCount] is
    their number; otherwise it builds no row list: the fetch returns the
    error of the [KeyError], with neither [Rows] nor [RowCount]. *)
Theorem result_normalization (results_response : get_query_results_output) :
  let column_info := process_columns results_response in
  let remaining := tl (raw_rows results_response) in
  (forall r cells,
      Data r = Some cells ->
      build_row column_info r
      = Ok (dict_of (combine (map col_Name column_info) (map cell_text cells)))
      /\ forall name,
           dict_mem (dict_of (combine (map col_Name column_info)
                                      (map cell_text cells))) name = true
           <-> exists i c,
                 i < length cells /\ nth_error column_info i = Some c
                 /\ col_Name c = name)
  /\ (forall r,
        Data r = None ->
        build_row column_info r
        = match column_info with
          | [] => Ok []
          | _ :: _ => Raise (key_error "Data")
          end)
  /\ (forall r,
        build_row column_info r
        = if buildable column_info r then Ok (zipped column_info r)
          else Raise (key_error "Data"))
  /\ process_rows results_response column_info
     = (if forallb (buildable column_info) remaining
        then Ok (map (zipped column_info) remaining)
        else Raise (key_error "Data"))
  /\ (forall (E : Type) (session : athena E) id max (e : E),
        let run := get_athena_query_results session id max (fresh e) in
        hd_error (trace (snd run))
        = Some (GetQueryResults id (Some max) (Ok results_response)) ->
        if forallb (buildable column_info) remaining
        then
          dict_get (fst run) (lit "Rows")
          = Some (PList (map row_value (map (zipped column_info) remaining)))
          /\ dict_get (fst run) (lit "RowCount")
             = Some (PInt (Z.of_nat (length remaining)))
        else
          fst run = error_outcome (key_error "Data")
          /\ dict_mem (fst run) (lit "Rows") = false
          /\ dict_mem (fst run) (lit "RowCount") = false).
Proof.
  intros column_info remaining. subst remaining.
  split; [|split; [|split; [|split]]].
  - intros r cells Hdata. split; [apply build_row_zip; exact Hdata|].
    intros name.
    destruct (build_row_cells column_info r cells Hdata) as [Hcells _].
    pose proof (zipped_keys column_info r name) as Hkeys.
    unfold zipped in Hkeys. rewrite Hcells in Hkeys. exact Hkeys.
  - intros r Hdata. apply build_row_no_data. exact Hdata.
  - intros r. apply build_row_spec.
  - apply process_rows_spec.
  - intros E session id max e run. subst run.
    pose proof (get_results_fetched session id max e) as Hf.
    remember (fst (get_athena_query_results session id max (fresh e))) as out.
    remember (trace (snd (get_athena_query_results session id max (fresh e)))) as t.
    clear Heqout Heqt.
    destruct Hf as [m | m | r m Hmeta | r entries Hmeta Hne
                    | r entries res Hmeta Hs]; try discriminate.
    intros [= ->]. rewrite normalized_spec. fold column_info.
    destruct (forallb (buildable column_info) (tl (raw_rows results_response)))
      eqn:Hb; [|repeat split; reflexivity].
    destruct (normalized_entries id r entries results_response _ Hmeta Hs
                (eq_trans (normalized_spec results_response)
                   ltac:(fold column_info; rewrite Hb; reflexivity)))
      as (rows & Hrows & _ & _ & Hr & Hn & _).
    rewrite process_rows_spec in Hrows. fold column_info in Hrows.
    rewrite Hb in Hrows. injection Hrows as <-.
    rewrite length_map in Hn. split; assumption.
Qed.

(** C10 (as amended).  A cell that is present in the data array of a row but
    has no value does not fail and is not left out: the row is built, and the
    name of the cell's column is a key of it.  The value under that name is
    the empty string when no later column that has a cell in the row bears
    the same name; a later one overwrites it.  The keys of the row are
    exactly the names of the columns that have a cell, so only cells missing
    from the data array are left out. *)
Theorem null_cell_is_empty_string (column_info : list column) (r : row)
    (cells : list datum) (i : nat) (c : column) (cell : datum) :
  Data r = Some cells ->
  nth_error column_info i = Some c ->
  nth_error cells i = Some cell ->
  VarCharValue cell = None ->
  exists data,
    build_row column_info r = Ok data
    /\ dict_mem data (col_Name c) = true
    /\ ((forall j c', i < j -> j < length cells ->
                      nth_error column_info j = Some c' ->
                      col_Name c' <> col_Name c) ->
        dict_get data (col_Name c) = Some [])
    /\ (forall name,
          dict_mem data name = true
          <-> exists j c',
                j < length cells /\ nth_error column_info j = Some c'
                /\ col_Name c' = name).
Proof.
  intros Hdata Hc Hcell Hnull.
  destruct (build_row_cells column_info r cells Hdata) as [Hcells Hrow].
  exists (zipped column_info r). split; [exact Hrow|].
  rewrite <- Hcells in *. split; [|split].
  - apply zipped_keys. exists i, c. split; [|auto].
    apply nth_error_Some. congruence.
  - intros Hlater.
    rewrite (zipped_last column_info r i c cell Hc Hcell Hlater).
    unfold cell_text. rewrite Hnull. reflexivity.
  - intros name. apply zipped_keys.
Qed.

(** ** The theorems at work *)

Lemma denylisted_keyword_rejected_witness :
  In (lit "DROP") disallowed_keywords
  /\ whole_word (lit "DROP") (normalize trailing_drop)
  /\ allowed_prefix (normalize trailing_drop) = true
  /\ validate_query trailing_drop
     = Some (error_outcome (keyword_restriction (lit "DROP"))).
Proof.
  assert (Hin : In (lit "DROP") disallowed_keywords) by (simpl; tauto).
  assert (Hw : whole_word (lit "DROP") (normalize trailing_drop))
    by (apply (re_search_keyword _ _ Hin); vm_compute; reflexivity).
  split; [exact Hin|]. split; [exact Hw|].
  destruct (denylisted_keyword_rejected trailing_drop (lit "DROP") Hin Hw)
    as [[Hp _] | [Hp _]]; [vm_compute in Hp; discriminate|].
  split; [exact Hp | vm_compute; reflexivity].
Defined.

(** C1, as stated, fails on [DROP TABLE x]: DROP occurs as a whole word,
    the query is rejected, and the reason is the prefix restriction, which
    names no keyword. *)
Lemma drop_table_reason :
  In (lit "DROP") disallowed_keywords
  /\ whole_word (lit "DROP") (normalize drop_table)
  /\ validate_query drop_table = Some (error_outcome prefix_restriction)
  /\ ~ (exists keyword,
          validate_query drop_table
          = Some (error_outcome (keyword_restriction keyword))).
Proof.
  assert (Hin : In (lit "DROP") disallowed_keywords) by (simpl; tauto).
  split; [exact Hin|].
  split; [apply (re_search_keyword _ _ Hin); vm_compute; reflexivity|].
  split; [vm_compute; reflexivity|].
  intros [keyword H]. vm_compute in H. discriminate H.
Qed.

Lemma read_query_admitted_witness :
  startswith (normalize dropping_creator) (lit "SELECT ") = true
  /\ validate_query dropping_creator = None.
Proof.
  split; [vm_compute; reflexivity|].
  apply read_query_admitted.
  - left. exists (lit "SELECT "). split; [simpl; tauto | vm_compute; reflexivity].
  - intros keyword Hin Hw. apply (re_search_keyword _ _ Hin) in Hw.
    simpl in Hin.
    repeat (destruct Hin as [<- | Hin]; [vm_compute in Hw; discriminate Hw|]).
    contradiction.
Defined.

Lemma blank_query_rejected_witness :
  forallb isspace blank = true
  /\ validate_query blank = Some (error_outcome prefix_restriction).
Proof.
  split; [vm_compute; reflexivity|].
  apply blank_query_rejected. vm_compute. reflexivity.
Defined.

(** C6, as stated, fails on the empty and on the whitespace-only query: the
    reason is the prefix restriction, not "empty query". *)
Lemma blank_query_reason :
  validate_query [] = Some (error_outcome prefix_restriction)
  /\ validate_query [] <> Some (error_outcome (lit "empty query"))
  /\ validate_query blank = Some (error_outcome prefix_restriction)
  /\ validate_query blank <> Some (error_outcome (lit "empty query")).
Proof.
  repeat split; try (vm_compute; reflexivity);
    intros H; vm_compute in H; discriminate H.
Qed.

Lemma rejected_query_never_submitted_witness :
  validate_query drop_table = Some (error_outcome prefix_restriction)
  /\ execute_athena_query succeeding_engine the_querier drop_table None None
       true (fresh 0)
     = (error_outcome prefix_restriction, fresh 0).
Proof.
  assert (Hrej : validate_query drop_table
                 = Some (error_outcome prefix_restriction))
    by (vm_compute; reflexivity).
  split; [exact Hrej|].
  destruct (rejected_query_never_submitted succeeding_engine the_querier
              drop_table None None true (fresh 0) _ Hrej)
    as (message & Hm & Hrun & _).
  injection Hm as <-. exact Hrun.
Defined.

Lemma succeeded_query_outcome_witness :
  last_status (trace (snd succeeded_run)) = Some (lit "SUCCEEDED")
  /\ fst succeeded_run
     = submitted (lit "s3://results/") (lit "q-1")
       ++ [(lit "Status", PStr (lit "SUCCEEDED"));
           (lit "Results", PResults two_rows)].
Proof.
  assert (Hlast : last_status (trace (snd succeeded_run))
                  = Some (lit "SUCCEEDED")) by (vm_compute; reflexivity).
  split; [exact Hlast|]. unfold succeeded_run in *.
  destruct (succeeded_query_outcome succeeding_engine the_querier
              (lit "SELECT id, name FROM t") None None 0 Hlast)
    as (id & res & Hhd & Hout).
  vm_compute in Hhd. injection Hhd as <- <-. exact Hout.
Defined.

(** C4, as stated, fails when the engine delivers [two_rows]: what the
    outcome holds under [Results] is the response as it came, with its three
    raw rows, the header among them; it is not the normalised result, and the
    outcome has no [Rows], [ColumnInfo] or [RowCount]. *)
Lemma waited_results_are_raw :
  last_status (trace (snd succeeded_run)) = Some (lit "SUCCEEDED")
  /\ dict_get (fst succeeded_run) (lit "Results") = Some (PResults two_rows)
  /\ (exists fields,
        normalized two_rows = Ok fields
        /\ PResults two_rows <> PDict fields
        /\ dict_get fields (lit "RowCount") = Some (PInt 2))
  /\ length (raw_rows two_rows) = 3
  /\ dict_mem (fst succeeded_run) (lit "Rows") = false
  /\ dict_mem (fst succeeded_run) (lit "ColumnInfo") = false
  /\ dict_mem (fst succeeded_run) (lit "RowCount") = false.
Proof.
  split; [vm_compute; reflexivity|]. split; [vm_compute; reflexivity|].
  split; [|vm_compute; repeat split].
  eexists. split; [vm_compute; reflexivity|].
  split; [discriminate | vm_compute; reflexivity].
Qed.

Lemma failed_query_outcome_witness :
  last_status (trace (snd failed_run)) = Some (lit "FAILED")
  /\ fst failed_run
     = submitted (lit "s3://results/") (lit "q-1")
       ++ [(lit "Status", PStr (lit "FAILED"))].
Proof.
  assert (Hlast : last_status (trace (snd failed_run)) = Some (lit "FAILED"))
    by (vm_compute; reflexivity).
  split; [exact Hlast|]. unfold failed_run in *.
  destruct (failed_query_outcome failing_engine the_querier
              (lit "SELECT x FROM t") None None 0 Hlast) as (id & Hout).
  rewrite Hout. vm_compute in Hout. injection Hout as <-. reflexivity.
Defined.

(** C5, as stated, fails when the engine reports FAILED with a reason: the
    status check carries the reason, and no entry of the outcome holds it. *)
Lemma failure_reason_dropped :
  hd_error (trace (snd failed_run))
  = Some (GetQueryExecution (lit "q-1")
            (reports (lit "FAILED") (Some syntax_error)))
  /\ dict_get (fst failed_run) (lit "Status") = Some (PStr (lit "FAILED"))
  /\ map fst (fst failed_run)
     = [lit "QueryExecutionId"; lit "OutputLocation"; lit "Status"]
  /\ ~ In (PStr syntax_error) (map snd (fst failed_run)).
Proof.
  vm_compute. repeat split.
  intros [H|[H|[H|[]]]]; discriminate H.
Qed.



(** The scenario of C8: the raw rows header, row 1, row 2 under two columns
    give two rows, the header not among them. *)
Lemma two_rows_normalized :
  dict_get (fst (get_athena_query_results succeeding_engine (lit "q-1") 1000
                   (fresh 2)))
           (lit "RowCount")
  = Some (PInt 2)
  /\ process_rows two_rows (process_columns two_rows)
     = Ok [ [(lit "id", lit "1"); (lit "name", lit "ada")];
            [(lit "id", lit "2"); (lit "name", lit "bob")] ].
Proof.
  split.
  - destruct (result_normalization two_rows) as (_ & _ & _ & _ & Hrun).
    specialize (Hrun nat succeeding_engine (lit "q-1") 1000%Z 2
                  ltac:(vm_compute; reflexivity)).
    destruct Hrun as [_ Hcount]. exact Hcount.
  - vm_compute. reflexivity.
Defined.

(** C8, as stated, fails on a row without a data array: under one column,
    the raw rows header, row without data give no row and no [RowCount]; the
    fetch returns the error of the [KeyError]. *)
Lemma row_without_data_fails :
  hd_error (trace (snd dataless_fetch))
  = Some (GetQueryResults (lit "q-1") (Some 1000%Z) (Ok row_without_data))
  /\ length (tl (raw_rows row_without_data)) = 1
  /\ process_rows row_without_data (process_columns row_without_data)
     = Raise (lit "'Data'")
  /\ fst dataless_fetch = error_outcome (lit "'Data'")
  /\ dict_mem (fst dataless_fetch) (lit "Rows") = false
  /\ dict_mem (fst dataless_fetch) (lit "RowCount") = false.
Proof. vm_compute. repeat split. Qed.

(** The budget of C9 used up: 100 checks, all answered RUNNING, and the
    outcome carries RUNNING. *)
Lemma busy_engine_exhausts_budget :
  status_checks
    (trace (snd (execute_athena_query busy_engine the_querier
                   (lit "SELECT 1") None None true (fresh 0))))
  = 100
  /\ fst (execute_athena_query busy_engine the_querier (lit "SELECT 1")
            None None true (fresh 0))
     = submitted (lit "s3://results/") (lit "q-1")
       ++ [(lit "Status", PStr (lit "RUNNING"))].
Proof.
  destruct (poll_loop_bounded busy_engine the_querier (lit "SELECT 1")
              None None 0) as (_ & _ & Hbusy & _).
  destruct (Hbusy (lit "RUNNING")) as [Hn [id Hout]];
    [vm_compute; reflexivity | reflexivity |].
  split; [exact Hn|].
  rewrite Hout. vm_compute in Hout. injection Hout as <-. reflexivity.
Defined.

Lemma null_cell_is_empty_string_witness :
  nth_error id_name_columns 1
  = Some {| col_Name := lit "name"; col_Type := lit "varchar" |}
  /\ Data one_then_null = Some [cell "1"; null_cell]
  /\ VarCharValue null_cell = None
  /\ build_row id_name_columns one_then_null
     = Ok [(lit "id", lit "1"); (lit "name", [])]
  /\ dict_get [(lit "id", lit "1"); (lit "name", [])] (lit "name") = Some [].
Proof.
  split; [reflexivity|]. split; [reflexivity|]. split; [reflexivity|].
  destruct (null_cell_is_empty_string id_name_columns one_then_null
              [cell "1"; null_cell] 1
              {| col_Name := lit "name"; col_Type := lit "varchar" |}
              null_cell eq_refl eq_refl eq_refl eq_refl)
    as (data & Hrow & _ & Hget & _).
  assert (Hdata : data = [(lit "id", lit "1"); (lit "name", [])]).
  { vm_compute in Hrow. injection Hrow as <-. reflexivity. }
  rewrite <- Hdata. split; [exact Hrow|].
  apply Hget. intros j c' Hij Hj. simpl in Hj. lia.
Defined.

(** C10, as stated, fails on two columns of the same name: the first cell
    is present and has no value, and the value under its column name is the
    text of the second cell, not the empty string. *)
Lemma null_cell_overwritten :
  nth_error same_name_columns 0
  = Some {| col_Name := lit "id"; col_Type := lit "varchar" |}
  /\ Data null_then_seven = Some [null_cell; cell "7"]
  /\ VarCharValue null_cell = None
  /\ build_row same_name_columns null_then_seven = Ok [(lit "id", lit "7")]
  /\ dict_get [(lit "id", lit "7")] (lit "id") <> Some [].
Proof.
  vm_compute. repeat split. discriminate.
Qed.

(** ** More on the validation gate *)

Section StripFacts.
Context {U : PyUnicode}.

Lemma lstrip_app (a b : str) :
  lstrip (a ++ b) = match lstrip a with [] => lstrip b | l => l ++ b end.
Proof.
  induction a as [|c a IH]; simpl; [destruct (lstrip b); reflexivity|].
  destruct (isspace c); [exact IH | reflexivity].
Qed.

Lemma forallb_rev {A} (f : A -> bool) (l : list A) :
  forallb f (rev l) = forallb f l.
Proof.
  induction l as [|a l IH]; simpl; [reflexivity|].
  rewrite forallb_app, IH. simpl. rewrite andb_true_r. apply andb_comm.
Qed.

Lemma lstrip_padding (ws s : str) :
  forallb isspace ws = true -> lstrip (ws ++ s) = lstrip s.
Proof.
  intros H. rewrite lstrip_app, (lstrip_all_space _ H). reflexivity.
Qed.

Lemma rstrip_padding (s ws : str) :
  forallb isspace ws = true -> rstrip (s ++ ws) = rstrip s.
Proof.
  intros H. unfold rstrip. rewrite rev_app_distr, lstrip_padding; [reflexivity|].
  rewrite forallb_rev. exact H.
Qed.

Lemma strip_padding (ws1 s ws2 : str) :
  forallb isspace ws1 = true -> forallb isspace ws2 = true ->
  strip (ws1 ++ s ++ ws2) = strip s.
Proof.
  intros H1 H2. unfold strip. rewrite lstrip_padding by exact H1.
  rewrite lstrip_app. destruct (lstrip s) as [|c l] eqn:Hs.
  - rewrite (lstrip_all_space _ H2). reflexivity.
  - apply rstrip_padding. exact H2.
Qed.

(** What [strip] keeps is a part of the text. *)
Lemma lstrip_incl (s : str) (c : char) : In c (lstrip s) -> In c s.
Proof.
  induction s as [|a s IH]; simpl; [tauto|].
  destruct (isspace a); simpl; tauto.
Qed.

Lemma strip_incl (s : str) (c : char) : In c (strip s) -> In c s.
Proof.
  unfold strip, rstrip. intros H. apply lstrip_incl.
  apply in_rev in H. apply lstrip_incl in H. apply in_rev in H. exact H.
Qed.

End StripFacts.

(** *** ASCII text *)

Lemma ascii_toupper_ascii (c : char) : (c < 128)%N -> (ascii_toupper c < 128)%N.
Proof.
  intros H. unfold ascii_toupper.
  destruct ((97 <=? c) && (c <=? 122))%N; lia.
Qed.

Lemma ascii_isspace_toupper (c : char) :
  ascii_isspace (ascii_toupper c) = ascii_isspace c.
Proof.
  unfold ascii_isspace, ascii_toupper.
  destruct (97 <=? c)%N eqn:H1; destruct (c <=? 122)%N eqn:H2; simpl;
    try reflexivity.
  apply N.leb_le in H1, H2.
  repeat match goal with
         | |- context [(?a <=? ?b)%N] => destruct (N.leb_spec a b)
         end; simpl; try reflexivity; lia.
Qed.

Lemma ascii_toupper_space (c : char) : ascii_toupper c = 32%N -> c = 32%N.
Proof.
  unfold ascii_toupper.
  destruct (97 <=? c)%N eqn:H1; destruct (c <=? 122)%N eqn:H2; simpl; auto.
  apply N.leb_le in H1, H2. lia.
Qed.

Section AsciiFacts.
Context {U : PyUnicode}.

Lemma is_ascii_map_toupper (s : str) :
  is_ascii s -> is_ascii (map ascii_toupper s).
Proof.
  unfold is_ascii. intros H. apply Forall_map.
  eapply Forall_impl; [|exact H]. apply ascii_toupper_ascii.
Qed.

Lemma upper_ascii (s : str) : is_ascii s -> upper s = map ascii_toupper s.
Proof.
  unfold upper. induction 1 as [|c s Hc Hs IH]; simpl; [reflexivity|].
  rewrite (toupper_ascii c Hc), IH. reflexivity.
Qed.

Lemma lstrip_is_ascii (s : str) : is_ascii s -> is_ascii (lstrip s).
Proof.
  unfold is_ascii. rewrite !Forall_forall. intros H c Hc.
  apply H. apply lstrip_incl. exact Hc.
Qed.

Lemma strip_is_ascii (s : str) : is_ascii s -> is_ascii (strip s).
Proof.
  unfold is_ascii. rewrite !Forall_forall. intros H c Hc.
  apply H. apply strip_incl. exact Hc.
Qed.

Lemma lstrip_map_toupper (s : str) :
  is_ascii s -> lstrip (map ascii_toupper s) = map ascii_toupper (lstrip s).
Proof.
  induction 1 as [|c s Hc Hs IH]; simpl; [reflexivity|].
  rewrite (isspace_ascii _ (ascii_toupper_ascii c Hc)), ascii_isspace_toupper,
    <- (isspace_ascii c Hc).
  destruct (isspace c); [exact IH | reflexivity].
Qed.

Lemma rev_is_ascii (s : str) : is_ascii s -> is_ascii (rev s).
Proof. unfold is_ascii. apply Forall_rev. Qed.

Lemma strip_map_toupper (s : str) :
  is_ascii s -> strip (map ascii_toupper s) = map ascii_toupper (strip s).
Proof.
  intros H. unfold strip, rstrip.
  rewrite (lstrip_map_toupper s H), <- map_rev, lstrip_map_toupper, map_rev;
    [reflexivity|].
  apply rev_is_ascii, lstrip_is_ascii, H.
Qed.

(** On ASCII text the normal form is the stripped text of the upper-cased
    letters. *)
Lemma normalize_ascii (s : str) :
  is_ascii s -> normalize s = strip (map ascii_toupper s).
Proof.
  intros H. unfold normalize.
  rewrite (upper_ascii _ (strip_is_ascii _ H)), strip_map_toupper by exact H.
  reflexivity.
Qed.

Lemma allowed_prefix_space (n : str) : allowed_prefix n = true -> In 32%N n.
Proof.
  unfold allowed_prefix. intros H.
  repeat (apply orb_true_iff in H as [H|H]);
    try (apply startswith_app in H as [post ->]; simpl; tauto).
  apply str_eqb_eq in H. subst n. simpl. tauto.
Qed.

End AsciiFacts.

Lemma first_match_unique {A} (P : A -> Prop) (l b1 a1 b2 a2 : list A) (x y : A) :
  l = b1 ++ x :: a1 -> l = b2 ++ y :: a2 ->
  P x -> P y -> Forall (fun z => ~ P z) b1 -> Forall (fun z => ~ P z) b2 ->
  x = y.
Proof.
  revert l b2; induction b1 as [|z b1 IH]; intros l b2 H1 H2 Hx Hy Hb1 Hb2.
  - destruct b2 as [|z b2]; simpl in *; subst l.
    + injection H2 as ->. reflexivity.
    + injection H2 as -> _. inversion Hb2; contradiction.
  - destruct b2 as [|z' b2]; simpl in *; subst l.
    + injection H2 as <- _. inversion Hb1; contradiction.
    + injection H2 as -> H2. inversion Hb1; inversion Hb2; subst.
      apply (IH _ b2 eq_refl H2); assumption.
Qed.

Lemma prefix_not_keyword_restriction (keyword : str) :
  prefix_restriction <> keyword_restriction keyword.
Proof.
  unfold prefix_restriction, keyword_restriction. intros H.
  apply (f_equal (fun l => nth_error l 22)) in H. vm_compute in H.
  discriminate H.
Qed.

Lemma keyword_restriction_inj (k1 k2 : str) :
  keyword_restriction k1 = keyword_restriction k2 -> k1 = k2.
Proof. unfold keyword_restriction. apply app_inv_head. Qed.

Lemma rejection_inj (m1 m2 : str) :
  Some (error_outcome m1) = Some (error_outcome m2) -> m1 = m2.
Proof.
  intros H.
  apply (f_equal (fun o => match o with
                           | Some [(_, PStr m)] => m
                           | _ => []
                           end)) in H.
  exact H.
Qed.

Section ValidatorTable.
Context {U : PyUnicode}.

Lemma validate_query_normal (q1 q2 : str) :
  normalize q1 = normalize q2 -> validate_query q1 = validate_query q2.
Proof. intros H. unfold validate_query. rewrite H. reflexivity. Qed.

Lemma first_whole_word_unique (k1 k2 text : str) :
  first_whole_word k1 text -> first_whole_word k2 text -> k1 = k2.
Proof.
  intros (b1 & a1 & H1 & Hw1 & Hb1) (b2 & a2 & H2 & Hw2 & Hb2).
  exact (first_match_unique (fun k => whole_word k text) _ _ _ _ _ _ _
           H1 H2 Hw1 Hw2 Hb1 Hb2).
Qed.

(** The three verdicts, and what the normal form of the query is like in each
    of them. *)
Lemma validate_query_cases (query_string : str) :
  (allowed_prefix (normalize query_string) = false
   /\ validate_query query_string = Some (error_outcome prefix_restriction))
  \/ (allowed_prefix (normalize query_string) = true
      /\ (forall keyword, In keyword disallowed_keywords ->
                          ~ whole_word keyword (normalize query_string))
      /\ validate_query query_string = None)
  \/ (allowed_prefix (normalize query_string) = true
      /\ exists keyword,
           first_whole_word keyword (normalize query_string)
           /\ validate_query query_string
              = Some (error_outcome (keyword_restriction keyword))).
Proof.
  destruct (allowed_prefix (normalize query_string)) eqn:Hp.
  - right.
    destruct (find (fun keyword => re_search_word keyword (normalize query_string))
                   disallowed_keywords) as [hit|] eqn:Hfind.
    + right. split; [reflexivity|].
      apply find_some in Hfind as [Hin Hm].
      apply (validate_query_keyword query_string hit Hp Hin).
      apply re_search_keyword; assumption.
    + left. split; [reflexivity|].
      assert (Hno : forall keyword, In keyword disallowed_keywords ->
                    ~ whole_word keyword (normalize query_string)).
      { intros keyword Hin Hw. apply (re_search_keyword _ _ Hin) in Hw.
        pose proof (find_none _ _ Hfind _ Hin) as Hn. simpl in Hn. congruence. }
      split; [exact Hno|]. apply validate_query_admits; assumption.
  - left. split; [reflexivity|]. apply validate_query_prefix. exact Hp.
Qed.

End ValidatorTable.

(** X1.  The verdict of the validator is decided by the normal form of the
    query: it is admitted exactly when the prefix test passes and no
    denylisted keyword occurs as a whole word; the reason is the prefix
    restriction exactly when the prefix test fails; and the reason names a
    keyword exactly when the prefix test passes and that keyword is the first
    of the list that occurs as a whole word. *)
Theorem validate_query_decision_table `{PyUnicode} (query_string : str) :
  (validate_query query_string = None
   <-> allowed_prefix (normalize query_string) = true
       /\ forall keyword, In keyword disallowed_keywords ->
                          ~ whole_word keyword (normalize query_string))
  /\ (validate_query query_string = Some (error_outcome prefix_restriction)
      <-> allowed_prefix (normalize query_string) = false)
  /\ (forall keyword,
        validate_query query_string
        = Some (error_outcome (keyword_restriction keyword))
        <-> allowed_prefix (normalize query_string) = true
            /\ first_whole_word keyword (normalize query_string)).
Proof.
  destruct (validate_query_cases query_string)
    as [[Hp Hv] | [(Hp & Hno & Hv) | (Hp & k & Hk & Hv)]]; rewrite Hv.
  - split; [|split].
    + split; [discriminate | intros [H1 _]; congruence].
    + split; auto.
    + intros keyword. split; [|intros [H1 _]; congruence].
      intros Heq. apply rejection_inj in Heq. exfalso.
      exact (prefix_not_keyword_restriction keyword Heq).
  - split; [|split].
    + split; auto.
    + split; [discriminate | congruence].
    + intros keyword. split; [discriminate|].
      intros [_ (b & a & Hl & Hw & _)]. exfalso.
      apply (Hno keyword); [rewrite Hl; apply in_elt | exact Hw].
  - split; [|split].
    + split; [discriminate|]. intros [_ Hno].
      destruct Hk as (b & a & Hl & Hw & _). exfalso.
      apply (Hno k); [rewrite Hl; apply in_elt | exact Hw].
    + split; [|congruence]. intros Heq. apply rejection_inj in Heq. exfalso.
      exact (prefix_not_keyword_restriction k (eq_sym Heq)).
    + intros keyword. split.
      * intros Heq. apply rejection_inj, keyword_restriction_inj in Heq.
        subst keyword. auto.
      * intros [_ Hk']. rewrite (first_whole_word_unique _ _ _ Hk Hk').
        reflexivity.
Qed.

(** X2.  Whitespace before and after a query does not change the verdict. *)
Theorem validate_query_ignores_padding `{PyUnicode} (before query_string after : str) :
  forallb isspace before = true ->
  forallb isspace after = true ->
  validate_query (before ++ query_string ++ after) = validate_query query_string.
Proof.
  intros Hb Ha. apply validate_query_normal. unfold normalize.
  rewrite strip_padding by assumption. reflexivity.
Qed.

(** X3.  Two ASCII queries that differ only in the case of their letters get
    the same verdict. *)
Theorem validate_query_ignores_case `{PyUnicode} (query1 query2 : str) :
  is_ascii query1 -> is_ascii query2 ->
  map ascii_toupper query1 = map ascii_toupper query2 ->
  validate_query query1 = validate_query query2.
Proof.
  intros H1 H2 Heq. apply validate_query_normal.
  rewrite !normalize_ascii by assumption. rewrite Heq. reflexivity.
Qed.

(** X4.  An ASCII query without a single space character is rejected with
    the prefix restriction, whatever else separates its words: each allowed
    prefix ends in a space, and so does nothing that tabs or line feeds
    could stand in for. *)
Theorem query_without_space_rejected `{PyUnicode} (query_string : str) :
  is_ascii query_string ->
  ~ In 32%N query_string ->
  validate_query query_string = Some (error_outcome prefix_restriction).
Proof.
  intros Ha Hno. apply validate_query_prefix.
  destruct (allowed_prefix (normalize query_string)) eqn:Hp; [|reflexivity].
  exfalso. apply Hno. apply allowed_prefix_space in Hp.
  rewrite normalize_ascii in Hp by exact Ha.
  apply strip_incl in Hp. apply in_map_iff in Hp as (c & Hc & Hin).
  apply ascii_toupper_space in Hc. subst c. exact Hin.
Qed.

(** ** More on submissions *)

Section SubmitRuns.
Context {U : PyUnicode} {E : Type} (session : athena E).

Lemma execute_unwaited self q wg ol (e : E) :
  validate_query q = None ->
  unwaited q (py_or wg (athena_workgroup self))
             (py_or ol (athena_output_location self))
    (fst (execute_athena_query session self q wg ol false (fresh e)))
    (trace (snd (execute_athena_query session self q wg ol false (fresh e)))).
Proof.
  intros Hval. unfold execute_athena_query, try_except. rewrite Hval.
  set (wg' := py_or wg (athena_workgroup self)).
  set (ol' := py_or ol (athena_output_location self)).
  unfold bind, call, lift, fresh, ret. cbn [engine_state trace].
  destruct (client session e) as [[[]|m] e1]; cbn [engine_state trace fst snd];
    [|apply unwaited_no_client].
  destruct (start_query_execution session q wg' ol' e1) as [[[[id|]]|m] e2];
    cbn [engine_state trace fst snd QueryExecutionId getitem];
    [apply unwaited_accepted | apply unwaited_no_id | apply unwaited_no_start].
Qed.

(** The runs of a submission from a fresh world. *)
Lemma execute_runs self q wg ol wait (e : E) :
  (validate_query q <> None
   /\ validate_query q
      = Some (fst (execute_athena_query session self q wg ol wait (fresh e)))
   /\ trace (snd (execute_athena_query session self q wg ol wait (fresh e))) = [])
  \/ (validate_query q = None /\ wait = true
      /\ waited q (py_or wg (athena_workgroup self))
                  (py_or ol (athena_output_location self))
           (fst (execute_athena_query session self q wg ol wait (fresh e)))
           (trace (snd (execute_athena_query session self q wg ol wait (fresh e)))))
  \/ (validate_query q = None /\ wait = false
      /\ unwaited q (py_or wg (athena_workgroup self))
                    (py_or ol (athena_output_location self))
           (fst (execute_athena_query session self q wg ol wait (fresh e)))
           (trace (snd (execute_athena_query session self q wg ol wait (fresh e))))).
Proof.
  destruct (validate_query q) as [rejection|] eqn:Hval.
  - left. rewrite (execute_rejected session _ _ _ _ _ _ _ Hval).
    split; [discriminate|]. split; reflexivity.
  - right. destruct wait.
    + left. split; [reflexivity|]. split; [reflexivity|].
      apply execute_waited. exact Hval.
    + right. split; [reflexivity|]. split; [reflexivity|].
      apply execute_unwaited. exact Hval.
Qed.

End SubmitRuns.

Lemma in_check_events id r ev :
  In ev (check_events id r) -> ev = GetQueryExecution id (Ok r) \/ ev = Sleep 1.
Proof.
  unfold check_events. destruct (pending r); simpl; intuition.
Qed.

Lemma in_poll_events id rs ev :
  In ev (poll_events id rs) ->
  (exists r, In r rs /\ ev = GetQueryExecution id (Ok r)) \/ ev = Sleep 1.
Proof.
  induction rs as [|r rs IH]; simpl; [tauto|].
  intros H. apply in_app_or in H as [H|H].
  - destruct (IH H) as [(r' & Hr & Hev) | Hev]; subst ev;
      [left; eauto | right; reflexivity].
  - destruct (in_check_events _ _ _ H) as [Hev | Hev]; subst ev;
      [left; eauto | right; reflexivity].
Qed.

Lemma filter_start_poll_events id rs :
  filter is_start (poll_events id rs) = [].
Proof.
  induction rs as [|r rs IH]; simpl; [reflexivity|].
  rewrite filter_app, IH. unfold check_events.
  destruct (pending r); reflexivity.
Qed.

Lemma slept_app t1 t2 : slept (t1 ++ t2) = (slept t1 + slept t2)%Z.
Proof.
  induction t1 as [|ev t1 IH]; simpl; [reflexivity|].
  destruct ev; rewrite ?IH; lia.
Qed.

Lemma count_in_progress_app t1 t2 :
  length (filter answered_in_progressb (t1 ++ t2))
  = length (filter answered_in_progressb t1)
    + length (filter answered_in_progressb t2).
Proof. rewrite filter_app, length_app. reflexivity. Qed.

(** The loop sleeps one second for each answer QUEUED or RUNNING. *)
Lemma slept_poll_events id rs :
  slept (poll_events id rs)
  = Z.of_nat (length (filter answered_in_progressb (poll_events id rs))).
Proof.
  induction rs as [|r rs IH]; simpl; [reflexivity|].
  rewrite slept_app, count_in_progress_app, IH, Nat2Z.inj_add. f_equal.
  unfold check_events. destruct (pending r) eqn:Hp; simpl;
    rewrite Hp; reflexivity.
Qed.

Lemma count_in_progress_le_checks t :
  length (filter answered_in_progressb t) <= status_checks t.
Proof.
  unfold status_checks. induction t as [|ev t IH]; simpl; [lia|].
  destruct ev as [r | ? ? ? r | ? [r|m] | ? ? r | ?]; simpl; try lia.
  destruct (pending r); simpl; lia.
Qed.

(** Case analysis on the membership of an event in a trace of a run. *)
Ltac split_in H :=
  repeat match type of H with
         | In _ (_ ++ _) => apply in_app_or in H as [H|H]
         | In _ (poll_events _ _) =>
             apply in_poll_events in H as [(?r & ?Hr & H)|H]
         | In _ (started _ _ _ _) => unfold started in H
         | In _ (started_without_id _ _ _) => unfold started_without_id in H
         | In _ (_ :: _) => destruct H as [H|H]
         | In _ [] => destruct H
         end.

(** The runs of a submission, with its outcome and trace named. *)
Ltac submit_cases session self q wg ol wait e out t :=
  let Hruns := fresh "Hruns" in
  pose proof (execute_runs session self q wg ol wait e) as Hruns;
  remember (fst (execute_athena_query session self q wg ol wait (fresh e)))
    as out;
  remember (trace (snd (execute_athena_query session self q wg ol wait
                          (fresh e)))) as t;
  match goal with
  | Ho : out = _, Ht : t = _ |- _ => clear Ho Ht
  end;
  destruct Hruns as [(?Hrej & ?Hout & ?Ht) | [(?Hval & ?Hwait & ?Hrun)
                                            | (?Hval & ?Hwait & ?Hrun)]].

Lemma submission_start_events `{PyUnicode} {E : Type}
    (session : athena E) (self : querier) (query_string : str)
    (workgroup output_location : option str) (wait_for_completion : bool)
    (e : E) :
  filter is_start
    (trace (snd (execute_athena_query session self query_string workgroup
                   output_location wait_for_completion (fresh e))))
  = []
  \/ exists r,
       filter is_start
         (trace (snd (execute_athena_query session self query_string
                        workgroup output_location wait_for_completion
                        (fresh e))))
       = [StartQueryExecution query_string
            (py_or workgroup (athena_workgroup self))
            (py_or output_location (athena_output_location self)) r].
Proof.
  submit_cases session self query_string workgroup output_location
    wait_for_completion e out t.
  - left. rewrite Ht. reflexivity.
  - waited_cases Hrun;
      unfold started, started_without_id; cbn [filter is_start];
      rewrite ?filter_app, ?filter_start_poll_events; cbn [filter is_start app];
      eauto.
  - destruct Hrun as [m | m | | id]; unfold started, started_without_id;
      cbn [filter is_start]; eauto.
Qed.

(** X5.  A submission starts at most one execution, and what it sends to the
    engine is the query text as it was given, not the stripped and
    upper-cased copy the validator looks at, with the workgroup and output
    location of the request or, where the request has none, of the server. *)
Theorem submits_at_most_once `{PyUnicode} {E : Type}
    (session : athena E) (self : querier) (query_string : str)
    (workgroup output_location : option str) (wait_for_completion : bool)
    (e : E) :
  let t := trace (snd (execute_athena_query session self query_string
                         workgroup output_location wait_for_completion
                         (fresh e))) in
  filter is_start t = []
  \/ exists r,
       filter is_start t
       = [StartQueryExecution query_string
            (py_or workgroup (athena_workgroup self))
            (py_or output_location (athena_output_location self)) r].
Proof.
  intros t. subst t. apply submission_start_events.
Qed.

(** X6.  A submission that does not wait makes no status check, never
    sleeps and never asks for results; unless it returns an error, its
    outcome holds exactly the execution id the engine handed out and the
    output location ending in that id and ".csv", and no status. *)
Theorem submission_without_waiting `{PyUnicode} {E : Type}
    (session : athena E) (self : querier) (query_string : str)
    (workgroup output_location : option str) (e : E) :
  let run := execute_athena_query session self query_string workgroup
               output_location false (fresh e) in
  status_checks (trace (snd run)) = 0
  /\ slept (trace (snd run)) = 0%Z
  /\ (forall ev, In ev (trace (snd run)) -> event_id ev = None)
  /\ dict_mem (fst run) (lit "Status") = false
  /\ (dict_mem (fst run) (lit "error") = false ->
      exists id,
        fst run
        = [(lit "QueryExecutionId", PStr id);
           (lit "OutputLocation",
            PStr (py_or output_location (athena_output_location self)
                  ++ id ++ lit ".csv"))]
        /\ trace (snd run)
           = started query_string
               (py_or workgroup (athena_workgroup self))
               (py_or output_location (athena_output_location self)) id).
Proof.
  intros run. subst run.
  submit_cases session self query_string workgroup output_location false e
    out t.
  - subst t. apply validate_query_rejection in Hout as [message ->].
    repeat split; try reflexivity; [intros ev []|discriminate].
  - discriminate.
  - destruct Hrun as [m | m | | id]; repeat split; try reflexivity;
      try discriminate;
      try (intros ev Hin; split_in Hin; subst ev; reflexivity).
    intros _. exists id. split; reflexivity.
Qed.

(** X7.  When an engine call of a submission raises, the submission makes
    no further call: the failed call is the last event, and the outcome is
    the error dictionary with the message of the exception, unchanged. *)
Theorem engine_failure_ends_submission `{PyUnicode} {E : Type}
    (session : athena E) (self : querier) (query_string : str)
    (workgroup output_location : option str) (wait_for_completion : bool)
    (e : E) (ev : event) (message : str) :
  In ev (trace (snd (execute_athena_query session self query_string workgroup
                       output_location wait_for_completion (fresh e)))) ->
  raised ev = Some message ->
  hd_error (trace (snd (execute_athena_query session self query_string
                          workgroup output_location wait_for_completion
                          (fresh e))))
  = Some ev
  /\ fst (execute_athena_query session self query_string workgroup
            output_location wait_for_completion (fresh e))
     = error_outcome message.
Proof.
  submit_cases session self query_string workgroup output_location
    wait_for_completion e out t.
  - subst t. intros [].
  - intros Hin Hraised.
    waited_cases Hrun; try destruct res as [x|m'];
      split_in Hin; subst ev; try discriminate;
      injection Hraised as <-; split; reflexivity.
  - intros Hin Hraised.
    destruct Hrun as [m | m | | id]; split_in Hin; subst ev; try discriminate;
      injection Hraised as <-; split; reflexivity.
Qed.

Lemma slept_cons_call ev t :
  (forall seconds, ev <> Sleep seconds) -> slept (ev :: t) = slept t.
Proof. intros H. destruct ev; try reflexivity. exfalso. exact (H _ eq_refl). Qed.

(** X8.  A submission sleeps one second for each status check that was
    answered QUEUED or RUNNING and at no other time, so it never blocks for
    more than 100 seconds of sleep. *)
Theorem sleeps_one_second_per_pending_answer `{PyUnicode} {E : Type}
    (session : athena E) (self : querier) (query_string : str)
    (workgroup output_location : option str) (wait_for_completion : bool)
    (e : E) :
  let t := trace (snd (execute_athena_query session self query_string
                         workgroup output_location wait_for_completion
                         (fresh e))) in
  slept t = Z.of_nat (length (filter answered_in_progressb t))
  /\ (slept t <= 100)%Z.
Proof.
  intros t. subst t.
  submit_cases session self query_string workgroup output_location
    wait_for_completion e out t.
  - subst t. split; [reflexivity | simpl; lia].
  - assert (Hpoll : forall id rs,
               (slept (poll_events id rs) <= Z.of_nat (length rs))%Z).
    { intros id rs. rewrite slept_poll_events.
      pose proof (count_in_progress_le_checks (poll_events id rs)) as Hle.
      rewrite status_checks_poll_events in Hle. lia. }
    waited_cases Hrun;
      unfold started, started_without_id;
      try (split; [reflexivity | simpl; lia]);
      repeat (rewrite slept_cons_call by discriminate);
      cbn [filter answered_in_progressb];
      rewrite slept_app, count_in_progress_app;
      (split; [rewrite slept_poll_events; simpl; lia|]);
      match goal with
      | |- context [slept (poll_events ?i ?l)] =>
          pose proof (Hpoll i l) as Hle
      end;
      rewrite ?length_app in Hle; simpl in *; lia.
  - destruct Hrun as [m | m | | id]; split; try reflexivity; simpl; lia.
Qed.

(** X9.  Every status check and every get-results call of a submission asks
    about the execution the engine handed out when this submission started
    it.  Results are asked for at most once, without a limit, as the last
    call, and only when the last status check answered SUCCEEDED. *)
Theorem asks_only_about_own_execution `{PyUnicode} {E : Type}
    (session : athena E) (self : querier) (query_string : str)
    (workgroup output_location : option str) (wait_for_completion : bool)
    (e : E) :
  let t := trace (snd (execute_athena_query session self query_string
                         workgroup output_location wait_for_completion
                         (fresh e))) in
  (forall ev id,
      In ev t -> event_id ev = Some id ->
      In (StartQueryExecution query_string
            (py_or workgroup (athena_workgroup self))
            (py_or output_location (athena_output_location self))
            (Ok {| QueryExecutionId := Some id |})) t)
  /\ (forall id max_results res,
        In (GetQueryResults id max_results res) t ->
        max_results = None
        /\ hd_error t = Some (GetQueryResults id max_results res)
        /\ last_status t = Some (lit "SUCCEEDED")).
Proof.
  intros t. subst t.
  submit_cases session self query_string workgroup output_location
    wait_for_completion e out t.
  - subst t. split; [intros ev id [] | intros id mr res []].
  - split.
    + intros ev id' Hin Hid.
      waited_cases Hrun;
        split_in Hin; subst ev; try discriminate;
        injection Hid as <-;
        unfold started; simpl; rewrite ?in_app_iff; simpl; auto 10.
    + intros id' mr res' Hin.
      waited_cases Hrun;
        split_in Hin; try discriminate.
      injection Hin as <- <- <-. split; [reflexivity|]. split; [reflexivity|].
      cbn [last_status]. rewrite last_status_polled, Hs. reflexivity.
  - split.
    + intros ev id' Hin Hid.
      destruct Hrun as [m | m | | id]; split_in Hin; subst ev; discriminate.
    + intros id' mr res' Hin.
      destruct Hrun as [m | m | | id]; split_in Hin; discriminate.
Qed.

(** ** More on fetching results *)

(** The run of a fetch, with its outcome and trace named. *)
Ltac fetch_cases session id max e out t :=
  let Hrun := fresh "Hrun" in
  pose proof (get_results_fetched session id max e) as Hrun;
  remember (fst (get_athena_query_results session id max (fresh e))) as out;
  remember (trace (snd (get_athena_query_results session id max (fresh e))))
    as t;
  match goal with
  | Ho : out = _, Ht : t = _ |- _ => clear Ho Ht
  end;
  destruct Hrun as [?m | ?m | ?r ?m ?Hmeta | ?r ?entries ?Hmeta ?Hne
                    | ?r ?entries ?res ?Hmeta ?Hs].

(** X10.  A fetch never starts an execution and never sleeps.  It makes one
    status check at most, and asks about no execution but the one it was
    given; it asks for results at most once, with the caller's limit, as its
    last call, and only when the status check answered SUCCEEDED.  When one
    of its calls raises, that call is the last event and the outcome is the
    error dictionary with the message of the exception. *)
Theorem fetch_trace_shape {E : Type} (session : athena E)
    (query_execution_id : str) (max_results : Z) (e : E) :
  let run := get_athena_query_results session query_execution_id max_results
               (fresh e) in
  let t := trace (snd run) in
  filter is_start t = []
  /\ slept t = 0%Z
  /\ status_checks t <= 1
  /\ (forall ev id, In ev t -> event_id ev = Some id -> id = query_execution_id)
  /\ (forall id limit res,
        In (GetQueryResults id limit res) t ->
        limit = Some max_results
        /\ hd_error t = Some (GetQueryResults id limit res)
        /\ last_status t = Some (lit "SUCCEEDED"))
  /\ (forall ev message,
        In ev t -> raised ev = Some message ->
        hd_error t = Some ev /\ fst run = error_outcome message).
Proof.
  intros run t. subst t run.
  fetch_cases session query_execution_id max_results e out t.
  all: split; [reflexivity|]; split; [reflexivity|];
    split; [unfold status_checks; simpl; lia|].
  all: split; [intros ev id Hin Hid; split_in Hin; subst ev;
               try discriminate; injection Hid as <-; reflexivity|].
  all: split; [intros id limit res' Hin; split_in Hin; try discriminate|].
  all: try (intros ev message Hin Hraised; split_in Hin; subst ev;
            try discriminate; injection Hraised as <-; split; reflexivity).
  - injection Hin as <- <- <-. split; [reflexivity|]. split; [reflexivity|].
    cbn [last_status]. exact Hs.
  - intros ev message Hin Hraised. split_in Hin; subst ev; try discriminate.
    destruct res as [x|m']; [discriminate|].
    injection Hraised as <-. split; reflexivity.
Qed.

(** X11.  The output of a fetch holds [ErrorMessage] exactly when the
    answer of the status check carries the state FAILED, a state-change
    reason and a [ResultConfiguration]; its value is then that reason.  An
    answer FAILED without a [ResultConfiguration] gives the error of the
    [KeyError], which holds no [ErrorMessage], whatever the reason. *)
Theorem error_message_iff_failed_with_reason {E : Type} (session : athena E)
    (query_execution_id : str) (max_results : Z) (e : E) (v : pyval) :
  let run := get_athena_query_results session query_execution_id max_results
               (fresh e) in
  (dict_get (fst run) (lit "ErrorMessage") = Some v
   <-> exists r reason,
         In (GetQueryExecution query_execution_id (Ok r)) (trace (snd run))
         /\ state_of r = Some (lit "FAILED")
         /\ reason_of r = Some reason
         /\ configuration_of r <> None
         /\ v = PStr reason)
  /\ (forall r,
        In (GetQueryExecution query_execution_id (Ok r)) (trace (snd run)) ->
        state_of r = Some (lit "FAILED") ->
        configuration_of r = None ->
        fst run = error_outcome (key_error "ResultConfiguration")).
Proof.
  intros run. subst run.
  fetch_cases session query_execution_id max_results e out t.
  - split; [|intros r Hin; split_in Hin; discriminate].
    split; [discriminate|]. intros (r & reason & Hin & _). split_in Hin;
      discriminate.
  - split; [|intros r Hin; split_in Hin; discriminate].
    split; [discriminate|]. intros (r & reason & Hin & _). split_in Hin;
      discriminate.
  - pose proof (metadata_cases query_execution_id r) as Hc.
    rewrite Hmeta in Hc. split.
    + split; [discriminate|].
      intros (r' & reason & Hin & Hf & _ & Hrc & _).
      split_in Hin; try discriminate. injection Hin as ->.
      destruct Hc as [[Hnone _] | (_ & Hnone & _)]; congruence.
    + intros r' Hin Hf Hrc. split_in Hin; try discriminate.
      injection Hin as ->.
      destruct Hc as [[Hnone _] | (_ & _ & ->)]; [congruence | reflexivity].
  - destruct (metadata_entries _ _ _ Hmeta)
      as (status & Hst & Hrc & _ & _ & _ & _ & Hmsg).
    split.
    + rewrite Hmsg. split.
      * destruct (str_eqb status (lit "FAILED")) eqn:Hf; [|discriminate].
        apply str_eqb_eq in Hf. subst status.
        destruct (reason_of r) as [reason|] eqn:Hr; [|discriminate].
        intros [= <-]. exists r, reason. simpl. auto.
      * intros (r' & reason & Hin & Hf & Hr & _ & ->).
        split_in Hin; try discriminate. injection Hin as ->.
        rewrite Hf in Hst. injection Hst as <-. rewrite Hr. reflexivity.
    + intros r' Hin _ Hnone. split_in Hin; try discriminate.
      injection Hin as ->. contradiction.
  - assert (Hnone : dict_get (match res with
                              | Ok x =>
                                  match normalized x with
                                  | Ok fields => entries ++ fields
                                  | Raise m => error_outcome m
                                  end
                              | Raise m => error_outcome m
                              end) (lit "ErrorMessage") = None).
    { destruct res as [x|m]; [|reflexivity].
      destruct (normalized x) as [fields|m] eqn:Hn; [|reflexivity].
      destruct (normalized_entries _ _ _ _ _ Hmeta Hs Hn)
        as (rows & _ & _ & _ & _ & _ & Hmsg).
      exact Hmsg. }
    split.
    + rewrite Hnone. split; [discriminate|].
      intros (r' & reason & Hin & Hf & _). split_in Hin; try discriminate.
      injection Hin as ->. rewrite Hs in Hf. discriminate Hf.
    + intros r' Hin Hf _. split_in Hin; try discriminate.
      injection Hin as ->. rewrite Hs in Hf. discriminate Hf.
Qed.

(** ** More on dictionaries and rows *)

Section DictKeys.
Context {V : Type}.

Lemma dict_mem_keys (d : dict V) (k : str) :
  dict_mem d k = true <-> In k (map fst d).
Proof.
  unfold dict_mem. induction d as [|[k0 v0] d IH]; simpl.
  - split; [discriminate | tauto].
  - destruct (str_eqb k0 k) eqn:Hk.
    + apply str_eqb_eq in Hk. tauto.
    + apply str_eqb_neq in Hk. rewrite IH. tauto.
Qed.

Lemma dict_get_none (d : dict V) (k : str) :
  dict_mem d k = false -> dict_get d k = None.
Proof. unfold dict_mem. destruct (dict_get d k); [discriminate | reflexivity]. Qed.

(** Assigning to a new key appends it. *)
Lemma dict_set_fresh (d : dict V) (k : str) (v : V) :
  ~ In k (map fst d) -> dict_set d k v = d ++ [(k, v)].
Proof.
  induction d as [|[k0 v0] d IH]; simpl; intros Hk; [reflexivity|].
  destruct (str_eqb k0 k) eqn:H0.
  - apply str_eqb_eq in H0. tauto.
  - rewrite IH by tauto. reflexivity.
Qed.

(** Assigning to a key that is there leaves the keys as they are. *)
Lemma dict_set_keys_present (d : dict V) (k : str) (v : V) :
  In k (map fst d) -> map fst (dict_set d k v) = map fst d.
Proof.
  induction d as [|[k0 v0] d IH]; simpl; intros Hk; [tauto|].
  destruct (str_eqb k0 k) eqn:H0; simpl; [reflexivity|].
  apply str_eqb_neq in H0. rewrite IH; [reflexivity|].
  destruct Hk; [contradiction | assumption].
Qed.

Lemma In_str_dec (k : str) (l : list str) : {In k l} + {~ In k l}.
Proof. apply in_dec. apply list_eq_dec. apply N.eq_dec. Qed.

(** The keys of a dictionary stay distinct. *)
Lemma dict_set_nodup (d : dict V) (k : str) (v : V) :
  NoDup (map fst d) -> NoDup (map fst (dict_set d k v)).
Proof.
  intros Hd. destruct (In_str_dec k (map fst d)) as [Hin|Hout].
  - rewrite dict_set_keys_present by exact Hin. exact Hd.
  - rewrite dict_set_fresh by exact Hout. rewrite map_app. simpl.
    apply NoDup_app; [exact Hd | constructor; [tauto|constructor] |].
    intros x Hx [Hk|[]]. subst x. contradiction.
Qed.

Lemma fold_bind_pair_nodup (pairs : list (str * V)) (d : dict V) :
  NoDup (map fst d) -> NoDup (map fst (fold_left bind_pair pairs d)).
Proof.
  revert d; induction pairs as [|[k v] pairs IH]; intros d Hd; simpl;
    [exact Hd|].
  apply IH. apply dict_set_nodup. exact Hd.
Qed.

Lemma dict_of_nodup (pairs : list (str * V)) : NoDup (map fst (dict_of pairs)).
Proof. rewrite dict_of_fold. apply fold_bind_pair_nodup. constructor. Qed.

(** Pairs of distinct keys go into a dictionary one after the other. *)
Lemma fold_bind_pair_distinct (pairs : list (str * V)) (d : dict V) :
  NoDup (map fst (d ++ pairs)) -> fold_left bind_pair pairs d = d ++ pairs.
Proof.
  revert d; induction pairs as [|[k v] pairs IH]; intros d Hd; simpl.
  - rewrite app_nil_r. reflexivity.
  - unfold bind_pair at 2. simpl. rewrite dict_set_fresh.
    + rewrite IH; rewrite <- app_assoc; [reflexivity | exact Hd].
    + rewrite map_app in Hd. simpl in Hd.
      apply NoDup_remove_2 in Hd. intros Hin. apply Hd.
      apply in_or_app. left. exact Hin.
Qed.

Lemma dict_of_distinct (pairs : list (str * V)) :
  NoDup (map fst pairs) -> dict_of pairs = pairs.
Proof. intros H. rewrite dict_of_fold. apply (fold_bind_pair_distinct pairs []), H. Qed.

End DictKeys.

Lemma NoDup_firstn {A} (n : nat) (l : list A) : NoDup l -> NoDup (firstn n l).
Proof.
  intros H. rewrite <- (firstn_skipn n l) in H.
  apply NoDup_app_remove_r in H. exact H.
Qed.

Lemma zipped_keys_nodup (column_info : list column) (r : row) :
  NoDup (map fst (zipped column_info r)).
Proof. apply dict_of_nodup. Qed.

Lemma zipped_keys_incl (column_info : list column) (r : row) :
  incl (map fst (zipped column_info r))
       (firstn (length (cells_of r)) (map col_Name column_info)).
Proof.
  intros k Hk. apply dict_mem_keys in Hk. unfold zipped in Hk.
  apply dict_mem_of in Hk.
  rewrite map_fst_combine, length_map in Hk. exact Hk.
Qed.

Lemma zipped_keys_names (column_info : list column) (r : row) :
  incl (map fst (zipped column_info r)) (map col_Name column_info).
Proof.
  intros k Hk. apply zipped_keys_incl in Hk.
  rewrite <- (firstn_skipn (length (cells_of r)) (map col_Name column_info)).
  apply in_or_app. left. exact Hk.
Qed.

(** X12.  When the names of the columns are distinct, a row that has a data
    array is built as exactly the list of the column names paired, in column
    order, with the texts of the cells of the same index: it ends with the
    shorter of the two, so cells beyond the last column are dropped and
    columns beyond the last cell are left out. *)
Theorem row_of_distinct_columns (column_info : list column) (r : row)
    (cells : list datum) :
  NoDup (map col_Name column_info) ->
  Data r = Some cells ->
  build_row column_info r
  = Ok (combine (map col_Name column_info) (map cell_text cells)).
Proof.
  intros Hnames Hdata. rewrite (build_row_zip _ _ _ Hdata). f_equal.
  apply dict_of_distinct.
  rewrite map_fst_combine. apply NoDup_firstn. exact Hnames.
Qed.

(** X13.  Whatever the column names, the keys of a row that is built are
    distinct names of columns, and the row has no more entries than there
    are columns or cells; a row without a data array is built only when
    there is no column, and is then empty. *)
Theorem row_shape (column_info : list column) (r : row) (data : dict str) :
  build_row column_info r = Ok data ->
  NoDup (map fst data)
  /\ incl (map fst data) (map col_Name column_info)
  /\ length data <= length column_info
  /\ length data <= length (cells_of r)
  /\ (Data r = None -> column_info = [] /\ data = []).
Proof.
  intros Hrow. pose proof (build_row_ok _ _ _ Hrow) as ->.
  pose proof (zipped_keys_nodup column_info r) as Hnd.
  pose proof (zipped_keys_incl column_info r) as Hincl.
  pose proof (NoDup_incl_length Hnd Hincl) as Hlen.
  rewrite length_map, length_firstn, length_map in Hlen.
  split; [exact Hnd|]. split; [apply zipped_keys_names|].
  split; [lia|]. split; [lia|].
  intros Hdata. rewrite (build_row_no_data _ _ Hdata) in Hrow.
  destruct column_info; [|discriminate].
  split; reflexivity.
Qed.

(** X14.  When the output of a fetch has [Rows], it also has [ColumnInfo]
    and [RowCount]; [RowCount] is the number of entries of [Rows], and every
    key of every row is the name of a column listed in [ColumnInfo]. *)
Theorem fetched_rows_consistent {E : Type} (session : athena E)
    (query_execution_id : str) (max_results : Z) (e : E) (rows_value : pyval) :
  dict_get (fst (get_athena_query_results session query_execution_id
                   max_results (fresh e)))
           (lit "Rows")
  = Some rows_value ->
  exists column_info rows,
    dict_get (fst (get_athena_query_results session query_execution_id
                     max_results (fresh e)))
             (lit "ColumnInfo")
    = Some (PList (map column_value column_info))
    /\ rows_value = PList (map row_value rows)
    /\ dict_get (fst (get_athena_query_results session query_execution_id
                        max_results (fresh e)))
                (lit "RowCount")
       = Some (PInt (Z.of_nat (length rows)))
    /\ Forall (fun data => incl (map fst data) (map col_Name column_info)) rows.
Proof.
  fetch_cases session query_execution_id max_results e out t;
    try discriminate.
  - destruct (metadata_entries _ _ _ Hmeta)
      as (status & _ & _ & _ & _ & Hrows & _).
    rewrite (dict_get_none _ _ Hrows). discriminate.
  - destruct res as [x|m]; [|discriminate].
    destruct (normalized x) as [fields|m] eqn:Hnorm; [|discriminate].
    destruct (normalized_entries _ _ _ _ _ Hmeta Hs Hnorm)
      as (rows & Hrows & _ & Hc & Hr & Hn & _).
    rewrite Hc, Hr, Hn. intros [= <-].
    exists (process_columns x), rows.
    repeat split. rewrite process_rows_spec in Hrows.
    destruct (forallb (buildable (process_columns x)) (tl (raw_rows x)));
      [|discriminate].
    injection Hrows as <-. apply Forall_map.
    apply Forall_forall. intros raw _.
    apply zipped_keys_names.
Qed.

(** ** The tool layer *)

Section ToolFacts.
Context {U : PyUnicode} {E : Type}.
Variable session : athena E.
Variable aws_querier : querier.
Variable json_dumps : dict pyval -> str.

Lemma listed_tool_names (t : tool) :
  In t handle_list_tools ->
  tool_name t = lit "aws_athena_query"
  /\ required_keys (inputSchema t) = [lit "query_string"]
  \/ tool_name t = lit "aws_athena_get_query_results"
     /\ required_keys (inputSchema t) = [lit "query_execution_id"].
Proof.
  intros [<- | [<- | []]]; [left | right]; split; reflexivity.
Qed.

Lemma call_query_tool (a : arguments) (w : world E) :
  handle_call_tool session aws_querier json_dumps (lit "aws_athena_query")
    (Some a) w
  = match arg_query_string a with
    | Some query_string =>
        (text_reply
           (json_dumps
              (fst (execute_athena_query session aws_querier query_string
                      (arg_workgroup a) (arg_output_location a)
                      (match arg_wait_for_completion a with
                       | Some b => b
                       | None => false
                       end) w))),
         snd (execute_athena_query session aws_querier query_string
                (arg_workgroup a) (arg_output_location a)
                (match arg_wait_for_completion a with
                 | Some b => b
                 | None => false
                 end) w))
    | None =>
        (text_reply (lit "Error: " ++ lit "Missing query_string argument"), w)
    end.
Proof.
  unfold handle_call_tool, call_tool_body.
  change (str_eqb (lit "aws_athena_query") (lit "aws_athena_query")) with true.
  cbv iota. destruct (arg_query_string a) as [q|]; [|reflexivity].
  destruct (execute_athena_query session aws_querier q (arg_workgroup a)
              (arg_output_location a) _ w) as [result w'].
  reflexivity.
Qed.

Lemma call_results_tool (a : arguments) (w : world E) :
  handle_call_tool session aws_querier json_dumps
    (lit "aws_athena_get_query_results") (Some a) w
  = match arg_query_execution_id a with
    | Some query_execution_id =>
        (text_reply
           (json_dumps
              (fst (get_athena_query_results session query_execution_id
                      (match arg_max_results a with
                       | Some n => n
                       | None => 1000%Z
                       end) w))),
         snd (get_athena_query_results session query_execution_id
                (match arg_max_results a with
                 | Some n => n
                 | None => 1000%Z
                 end) w))
    | None =>
        (text_reply
           (lit "Error: " ++ lit "Missing query_execution_id argument"), w)
    end.
Proof.
  unfold handle_call_tool, call_tool_body.
  change (str_eqb (lit "aws_athena_get_query_results") (lit "aws_athena_query"))
    with false.
  change (str_eqb (lit "aws_athena_get_query_results")
            (lit "aws_athena_get_query_results")) with true.
  cbv iota. destruct (arg_query_execution_id a) as [id|]; [|reflexivity].
  destruct (get_athena_query_results session id _ w) as [result w'].
  reflexivity.
Qed.

Lemma call_tool_without_arguments (name : str) (w : world E) :
  handle_call_tool session aws_querier json_dumps name None w
  = (text_reply
       (lit "Error: "
        ++ (if str_eqb name (lit "aws_athena_query")
            then lit "Missing query_string argument"
            else if str_eqb name (lit "aws_athena_get_query_results")
                 then lit "Missing query_execution_id argument"
                 else lit "Unknown tool: " ++ name)), w).
Proof.
  unfold handle_call_tool, call_tool_body.
  destruct (str_eqb name (lit "aws_athena_query")); [reflexivity|].
  destruct (str_eqb name (lit "aws_athena_get_query_results")); reflexivity.
Qed.

End ToolFacts.

(** The defaults of the listed schemas. *)
Lemma listed_tool_defaults (t : tool) (key : str) (default : json) :
  In t handle_list_tools ->
  schema_default (inputSchema t) key = Some default ->
  tool_name t = lit "aws_athena_query"
  /\ key = lit "wait_for_completion" /\ default = JBool false
  \/ tool_name t = lit "aws_athena_get_query_results"
     /\ key = lit "max_results" /\ default = JInt 1000.
Proof.
  intros [<- | [<- | []]]; unfold schema_default.
  - change (json_get _ (lit "properties")) with (Some query_properties).
    unfold query_properties. cbn [json_get dict_get].
    repeat match goal with
           | |- context [str_eqb ?k key] =>
               let Hk := fresh "Hk" in
               destruct (str_eqb k key) eqn:Hk;
               [apply str_eqb_eq in Hk; subst key;
                try (vm_compute; discriminate)|]
           end; try discriminate.
    vm_compute. intros [= <-]. left. auto.
  - change (json_get _ (lit "properties")) with (Some results_properties).
    unfold results_properties. cbn [json_get dict_get].
    repeat match goal with
           | |- context [str_eqb ?k key] =>
               let Hk := fresh "Hk" in
               destruct (str_eqb k key) eqn:Hk;
               [apply str_eqb_eq in Hk; subst key;
                try (vm_compute; discriminate)|]
           end; try discriminate.
    vm_compute. intros [= <-]. right. auto.
Qed.

(** X15.  A call of a listed tool without one of the arguments its schema
    requires, or without arguments at all, is answered with the text
    "Error: Missing <key> argument", and nothing is asked of the engine. *)
Theorem missing_required_argument `{PyUnicode} {E : Type}
    (session : athena E) (aws_querier : querier)
    (json_dumps : dict pyval -> str) (t : tool) (key : str)
    (args : option arguments) (w : world E) :
  In t handle_list_tools ->
  In key (required_keys (inputSchema t)) ->
  (forall a, args = Some a -> argument_present a key = false) ->
  handle_call_tool session aws_querier json_dumps (tool_name t) args w
  = (text_reply (lit "Error: Missing " ++ key ++ lit " argument"), w).
Proof.
  intros Ht Hkey Habsent.
  destruct (listed_tool_names t Ht) as [[Hn Hr] | [Hn Hr]];
    rewrite Hn; rewrite Hr in Hkey; destruct Hkey as [<- | []].
  - destruct args as [a|].
    + rewrite call_query_tool. specialize (Habsent a eq_refl).
      change (is_some (arg_query_string a) = false) in Habsent.
      destruct (arg_query_string a); [discriminate | reflexivity].
    + rewrite call_tool_without_arguments. reflexivity.
  - destruct args as [a|].
    + rewrite call_results_tool. specialize (Habsent a eq_refl).
      change (is_some (arg_query_execution_id a) = false) in Habsent.
      destruct (arg_query_execution_id a); [discriminate | reflexivity].
    + rewrite call_tool_without_arguments. reflexivity.
Qed.

(** X16.  A call of a tool that [handle_list_tools] does not list is
    answered with the text "Error: Unknown tool: <name>", whatever its
    arguments, and nothing is asked of the engine. *)
Theorem unlisted_tool_unknown `{PyUnicode} {E : Type}
    (session : athena E) (aws_querier : querier)
    (json_dumps : dict pyval -> str) (name : str)
    (args : option arguments) (w : world E) :
  ~ In name (map tool_name handle_list_tools) ->
  handle_call_tool session aws_querier json_dumps name args w
  = (text_reply (lit "Error: Unknown tool: " ++ name), w).
Proof.
  intros Hname. simpl in Hname.
  assert (H1 : str_eqb name (lit "aws_athena_query") = false)
    by (apply str_eqb_neq; intros ->; apply Hname; left; reflexivity).
  assert (H2 : str_eqb name (lit "aws_athena_get_query_results") = false)
    by (apply str_eqb_neq; intros ->; apply Hname; right; left; reflexivity).
  unfold handle_call_tool, call_tool_body. rewrite H1, H2. reflexivity.
Qed.

(** X17.  A call of a listed tool with the arguments its schema requires
    runs the operation of that tool, once, on the arguments of the request:
    [execute_athena_query] for [aws_athena_query], without waiting when
    [wait_for_completion] is left out, and [get_athena_query_results] for
    [aws_athena_get_query_results], with a limit of 1000 when [max_results]
    is left out.  The reply is one text, the JSON of the very dictionary
    that operation returned, and the world after the call is the one that
    operation left. *)
Theorem listed_tool_runs `{PyUnicode} {E : Type}
    (session : athena E) (aws_querier : querier)
    (json_dumps : dict pyval -> str) (t : tool) (a : arguments)
    (w : world E) :
  In t handle_list_tools ->
  (forall key, In key (required_keys (inputSchema t)) ->
               argument_present a key = true) ->
  exists run : dict pyval * world E,
    handle_call_tool session aws_querier json_dumps (tool_name t) (Some a) w
    = (text_reply (json_dumps (fst run)), snd run)
    /\ (tool_name t = lit "aws_athena_query"
        /\ (exists query_string,
              arg_query_string a = Some query_string
              /\ run = execute_athena_query session aws_querier query_string
                         (arg_workgroup a) (arg_output_location a)
                         (match arg_wait_for_completion a with
                          | Some b => b
                          | None => false
                          end) w)
        \/ tool_name t = lit "aws_athena_get_query_results"
           /\ (exists query_execution_id,
                 arg_query_execution_id a = Some query_execution_id
                 /\ run = get_athena_query_results session query_execution_id
                            (match arg_max_results a with
                             | Some n => n
                             | None => 1000%Z
                             end) w)).
Proof.
  intros Ht Hreq.
  destruct (listed_tool_names t Ht) as [[Hn Hr] | [Hn Hr]];
    rewrite Hn; rewrite Hr in Hreq;
    specialize (Hreq _ (or_introl eq_refl)).
  - rewrite call_query_tool.
    change (is_some (arg_query_string a) = true) in Hreq.
    destruct (arg_query_string a) as [q|]; [|discriminate].
    eexists. split; [reflexivity|]. left. split; [reflexivity|].
    exists q. split; reflexivity.
  - rewrite call_results_tool.
    change (is_some (arg_query_execution_id a) = true) in Hreq.
    destruct (arg_query_execution_id a) as [id|]; [|discriminate].
    eexists. split; [reflexivity|]. right. split; [reflexivity|].
    exists id. split; reflexivity.
Qed.

(** X18.  The defaults the schemas advertise are the ones the handler
    applies: a call that leaves out a property for which the schema of the
    tool has a default behaves as the call with that default given. *)
Theorem omitted_argument_takes_schema_default `{PyUnicode} {E : Type}
    (session : athena E) (aws_querier : querier)
    (json_dumps : dict pyval -> str) (t : tool) (key : str) (default : json)
    (a : arguments) (w : world E) :
  In t handle_list_tools ->
  schema_default (inputSchema t) key = Some default ->
  argument_present a key = false ->
  handle_call_tool session aws_querier json_dumps (tool_name t) (Some a) w
  = handle_call_tool session aws_querier json_dumps (tool_name t)
      (Some (with_argument a key default)) w.
Proof.
  intros Ht Hdefault Habsent.
  destruct (listed_tool_defaults t key default Ht Hdefault)
    as [(Hn & -> & ->) | (Hn & -> & ->)]; rewrite Hn.
  - rewrite !call_query_tool.
    change (is_some (arg_wait_for_completion a) = false) in Habsent.
    destruct a as [q wg ol [b|] id n]; [discriminate | reflexivity].
  - rewrite !call_results_tool.
    change (is_some (arg_max_results a) = false) in Habsent.
    destruct a as [q wg ol b id [n|]]; [discriminate | reflexivity].
Qed.

(** X19.  A query the validator rejects, submitted through the tool, is
    answered with the JSON of the rejection, not with an "Error:" text, and
    nothing is asked of the engine. *)
Theorem rejected_query_through_tool `{PyUnicode} {E : Type}
    (session : athena E) (aws_querier : querier)
    (json_dumps : dict pyval -> str) (a : arguments) (query_string : str)
    (rejection : dict pyval) (w : world E) :
  arg_query_string a = Some query_string ->
  validate_query query_string = Some rejection ->
  handle_call_tool session aws_querier json_dumps (lit "aws_athena_query")
    (Some a) w
  = (text_reply (json_dumps rejection), w).
Proof.
  intros Hq Hrej. rewrite call_query_tool, Hq.
  rewrite (execute_rejected session _ _ _ _ _ _ _ Hrej). reflexivity.
Qed.

(** ** Configuration *)

Lemma init_workgroup (switches environ : dict str) (request : option str) :
  py_or request (athena_workgroup (fst (init switches environ)))
  = first_given request
      (dict_get switches (lit "--athena-workgroup"))
      (dict_get environ (lit "AWS_ATHENA_WORKGROUP"))
      (lit "primary").
Proof.
  unfold init, parse_arguments, add_argument_default, environ_get_default,
    first_given, py_or.
  cbn [fst athena_workgroup ns_athena_workgroup].
  destruct request as [[|c r]|]; reflexivity.
Qed.

Lemma init_output_location (switches environ : dict str) (request : option str) :
  py_or request (athena_output_location (fst (init switches environ)))
  = first_given request
      (dict_get switches (lit "--athena-output-location"))
      (dict_get environ (lit "AWS_ATHENA_OUTPUT_LOCATION"))
      (lit "s3://aws-athena-query-results-qa-ue1/query-results/").
Proof.
  unfold init, parse_arguments, add_argument_default, environ_get_default,
    first_given, py_or.
  cbn [fst athena_output_location ns_athena_output_location].
  destruct request as [[|c r]|]; reflexivity.
Qed.

(** X20.  The workgroup and the output location a submission sends to the
    engine are, each, the first that is there of: the non-empty value of the
    request, the command-line switch, the environment variable, the built-in
    default.  A switch or a variable that is set counts even when it is
    empty. *)
Theorem workgroup_and_location_precedence `{PyUnicode} {E : Type}
    (session : athena E) (switches environ : dict str) (query_string : str)
    (workgroup output_location : option str) (wait_for_completion : bool)
    (e : E) :
  let t := trace (snd (execute_athena_query session
                         (fst (init switches environ)) query_string
                         workgroup output_location wait_for_completion
                         (fresh e))) in
  filter is_start t = []
  \/ exists r,
       filter is_start t
       = [StartQueryExecution query_string
            (first_given workgroup
               (dict_get switches (lit "--athena-workgroup"))
               (dict_get environ (lit "AWS_ATHENA_WORKGROUP"))
               (lit "primary"))
            (first_given output_location
               (dict_get switches (lit "--athena-output-location"))
               (dict_get environ (lit "AWS_ATHENA_OUTPUT_LOCATION"))
               (lit "s3://aws-athena-query-results-qa-ue1/query-results/"))
            r].
Proof.
  intros t. subst t.
  rewrite <- init_workgroup, <- init_output_location.
  apply submission_start_events.
Qed.

(** ** The code analyser *)

Lemma node_induction (P : node -> Prop) :
  (forall targets, P (Assign targets)) ->
  (forall names, P (Import names)) ->
  (forall module, P (ImportFrom module)) ->
  (forall children, Forall P children -> P (Other children)) ->
  forall n, P n.
Proof.
  intros HA HI HF HO. fix IH 1. intros [targets|names|module|children].
  - apply HA.
  - apply HI.
  - apply HF.
  - apply HO.
    exact ((fix all (l : list node) : Forall P l :=
              match l with
              | [] => Forall_nil P
              | c :: l' => Forall_cons c (IH c) (all l')
              end) children).
Qed.

Lemma visit_other (children : list node) (self : code_executor) :
  visit (Other children) self
  = (Other (fst (visit_list children self)), snd (visit_list children self)).
Proof.
  change (visit (Other children) self)
    with (let (children', self') := visit_list children self in
          (Other children', self')).
  destruct (visit_list children self). reflexivity.
Qed.

Lemma visit_list_cons (c : node) (l : list node) (self : code_executor) :
  visit_list (c :: l) self
  = (fst (visit c self) :: fst (visit_list l (snd (visit c self))),
     snd (visit_list l (snd (visit c self)))).
Proof.
  simpl. destruct (visit c self) as [c' s1]. simpl.
  destruct (visit_list l s1). reflexivity.
Qed.

Lemma module_eqb_eq (a b : option str) : module_eqb a b = true <-> a = b.
Proof.
  destruct a as [x|], b as [y|]; simpl;
    try (split; [discriminate | discriminate]); try tauto.
  rewrite str_eqb_eq. split; [intros ->; reflexivity | intros [= ->]; reflexivity].
Qed.

Lemma set_add_in (s : list (option str)) (x m : option str) :
  In m (set_add s x) <-> In m s \/ m = x.
Proof.
  unfold set_add. destruct (existsb (module_eqb x) s) eqn:Hx.
  - apply existsb_exists in Hx as (y & Hy & Heq).
    apply module_eqb_eq in Heq. subst y.
    split; [tauto | intros [H|H]; [exact H | subst m; exact Hy]].
  - rewrite in_app_iff. simpl. split; [intros [H|[H|[]]]; auto | intros [H|H]; auto].
Qed.

Lemma set_add_nodup (s : list (option str)) (x : option str) :
  NoDup s -> NoDup (set_add s x).
Proof.
  intros Hs. unfold set_add. destruct (existsb (module_eqb x) s) eqn:Hx;
    [exact Hs|].
  apply NoDup_app; [exact Hs | constructor; [tauto | constructor] |].
  intros y Hy [<- | []].
  assert (Hex : existsb (module_eqb x) s = true)
    by (apply existsb_exists; exists x; split; [exact Hy | apply module_eqb_eq; reflexivity]).
  congruence.
Qed.

Lemma visit_Assign_modules targets self :
  imported_modules (visit_Assign targets self) = imported_modules self.
Proof.
  unfold visit_Assign. revert self.
  induction targets as [|[id|] targets IH]; intros self; simpl;
    [reflexivity | | apply IH].
  rewrite IH. destruct (str_eqb id (lit "result")); reflexivity.
Qed.

Lemma visit_Assign_result targets self :
  has_result (visit_Assign targets self) = true
  <-> has_result self = true \/ In (Name_ (lit "result")) targets.
Proof.
  unfold visit_Assign. revert self.
  induction targets as [|[id|] targets IH]; intros self; simpl.
  - tauto.
  - rewrite IH. destruct (str_eqb id (lit "result")) eqn:Hid; simpl.
    + apply str_eqb_eq in Hid. subst id. tauto.
    + apply str_eqb_neq in Hid.
      split; [tauto | intros [H|[H|H]]; auto].
      injection H as H. contradiction.
  - rewrite IH. split; [tauto | intros [H|[H|H]]; auto; discriminate].
Qed.

Lemma visit_Import_result names self :
  has_result (visit_Import names self) = has_result self.
Proof.
  unfold visit_Import. revert self.
  induction names as [|name names IH]; intros self; simpl; [reflexivity|].
  rewrite IH. reflexivity.
Qed.

Lemma visit_Import_modules names self m :
  In m (imported_modules (visit_Import names self))
  <-> In m (imported_modules self) \/ exists name, In name names /\ m = Some name.
Proof.
  unfold visit_Import. revert self.
  induction names as [|name names IH]; intros self; simpl.
  - split; [tauto | intros [H|(name & [] & _)]; exact H].
  - rewrite IH. simpl. rewrite set_add_in. split.
    + intros [[H|H]|(n & Hn & Hm)]; eauto.
    + intros [H|(n & [<-|Hn] & Hm)]; eauto.
Qed.

Lemma visit_Import_nodup names self :
  NoDup (imported_modules self) ->
  NoDup (imported_modules (visit_Import names self)).
Proof.
  unfold visit_Import. revert self.
  induction names as [|name names IH]; intros self Hs; simpl; [exact Hs|].
  apply IH. simpl. apply set_add_nodup. exact Hs.
Qed.

Lemma visit_list_keeps (l : list node) :
  Forall (fun c => forall self, fst (visit c self) = c) l ->
  forall self, fst (visit_list l self) = l.
Proof.
  induction 1 as [|c l Hc Hl IH]; intros self; [reflexivity|].
  rewrite visit_list_cons. simpl. rewrite Hc, IH. reflexivity.
Qed.

Lemma visit_list_result (l : list node) :
  Forall (fun c => forall self,
              has_result (snd (visit c self)) = true
              <-> has_result self = true \/ assigns_result c) l ->
  forall self,
    has_result (snd (visit_list l self)) = true
    <-> has_result self = true \/ exists c, In c l /\ assigns_result c.
Proof.
  induction 1 as [|c l Hc Hl IH]; intros self.
  - simpl. split; [tauto | intros [H|(c & [] & _)]; exact H].
  - rewrite visit_list_cons. simpl. rewrite IH, Hc. split.
    + intros [[H|H]|(c' & Hin & Ha)]; eauto.
    + intros [H|(c' & [<-|Hin] & Ha)]; eauto.
Qed.

Lemma visit_list_modules (m : option str) (l : list node) :
  Forall (fun c => forall self,
              In m (imported_modules (snd (visit c self)))
              <-> In m (imported_modules self) \/ imports m c) l ->
  forall self,
    In m (imported_modules (snd (visit_list l self)))
    <-> In m (imported_modules self) \/ exists c, In c l /\ imports m c.
Proof.
  induction 1 as [|c l Hc Hl IH]; intros self.
  - simpl. split; [tauto | intros [H|(c & [] & _)]; exact H].
  - rewrite visit_list_cons. simpl. rewrite IH, Hc. split.
    + intros [[H|H]|(c' & Hin & Ha)]; eauto.
    + intros [H|(c' & [<-|Hin] & Ha)]; eauto.
Qed.

Lemma visit_list_nodup (l : list node) :
  Forall (fun c => forall self,
              NoDup (imported_modules self) ->
              NoDup (imported_modules (snd (visit c self)))) l ->
  forall self,
    NoDup (imported_modules self) ->
    NoDup (imported_modules (snd (visit_list l self))).
Proof.
  induction 1 as [|c l Hc Hl IH]; intros self Hs; [exact Hs|].
  rewrite visit_list_cons. simpl. apply IH, Hc, Hs.
Qed.

(** X21.  The analyser never rewrites the code: visiting a node gives the
    node back as it was, whatever the state of the analyser. *)
Theorem visit_keeps_tree (n : node) (self : code_executor) :
  fst (visit n self) = n.
Proof.
  revert self. induction n as [targets|names|module|children IH]
    using node_induction; intros self; try reflexivity.
  rewrite visit_other. simpl. rewrite visit_list_keeps by exact IH.
  reflexivity.
Qed.

(** X22.  After a visit [has_result] is set exactly when it was set before
    or the code holds, at any depth the visitor reaches, an assignment one
    of whose targets is the plain name [result]; a visit never unsets it. *)
Theorem has_result_iff_assigned (n : node) (self : code_executor) :
  has_result (snd (visit n self)) = true
  <-> has_result self = true \/ assigns_result n.
Proof.
  revert self. induction n as [targets|names|module|children IH]
    using node_induction; intros self.
  - simpl. rewrite visit_Assign_result. split.
    + intros [H|H]; [auto | right; constructor; exact H].
    + intros [H|H]; [auto | right; inversion H; assumption].
  - simpl. rewrite visit_Import_result.
    split; [auto | intros [H|H]; [exact H | inversion H]].
  - simpl. split; [auto | intros [H|H]; [exact H | inversion H]].
  - rewrite visit_other. simpl. rewrite (visit_list_result children IH). split.
    + intros [H|(c & Hin & Ha)]; [auto | right; econstructor; eassumption].
    + intros [H|H]; [auto | right; inversion H; eauto].
Qed.

(** X23.  After a visit the set of imported modules holds exactly the
    modules it held before, the names of the [import] statements and the
    modules of the [from ... import] statements the visitor reaches, a
    relative import without module counting as [None]; and no module is in
    it twice. *)
Theorem imported_modules_collected (n : node) (self : code_executor) :
  (forall m,
      In m (imported_modules (snd (visit n self)))
      <-> In m (imported_modules self) \/ imports m n)
  /\ (NoDup (imported_modules self) ->
      NoDup (imported_modules (snd (visit n self)))).
Proof.
  split.
  - intros m. revert self. induction n as [targets|names|module|children IH]
      using node_induction; intros self.
    + simpl. rewrite visit_Assign_modules.
      split; [auto | intros [H|H]; [exact H | inversion H]].
    + simpl. rewrite visit_Import_modules. split.
      * intros [H|(name & Hin & ->)]; [auto | right; econstructor; eauto].
      * intros [H|H]; [auto | right; inversion H; eauto].
    + simpl. rewrite set_add_in. split.
      * intros [H | ->]; [auto | right; constructor].
      * intros [H|H]; [auto | right; inversion H; reflexivity].
    + rewrite visit_other. simpl. rewrite (visit_list_modules m children IH).
      split.
      * intros [H|(c & Hin & Ha)]; [auto | right; econstructor; eassumption].
      * intros [H|H]; [auto | right; inversion H; eauto].
  - revert self. induction n as [targets|names|module|children IH]
      using node_induction; intros self Hs.
    + simpl. rewrite visit_Assign_modules. exact Hs.
    + simpl. apply visit_Import_nodup, Hs.
    + simpl. apply set_add_nodup, Hs.
    + rewrite visit_other. simpl. apply (visit_list_nodup children IH), Hs.
Qed.

(** ** The further properties at work *)

Lemma is_ascii_check (s : str) :
  forallb (fun c => (c <? 128)%N) s = true -> is_ascii s.
Proof.
  intros H. apply Forall_forall. intros c Hc.
  apply N.ltb_lt. exact (proj1 (forallb_forall _ _) H c Hc).
Qed.

Lemma validate_query_ignores_padding_witness :
  validate_query ([32; 32; 10; 9]%N ++ lit "select 1" ++ [32; 10]%N)
  = validate_query (lit "select 1").
Proof.
  apply validate_query_ignores_padding; vm_compute; reflexivity.
Defined.

Lemma validate_query_ignores_case_witness :
  validate_query (lit "select * from t; Drop table t")
  = validate_query (lit "SELECT * From T; DROP TABLE t").
Proof.
  apply validate_query_ignores_case;
    try (apply is_ascii_check; vm_compute; reflexivity).
  vm_compute. reflexivity.
Defined.

Lemma query_without_space_rejected_witness :
  validate_query select_tab_one = Some (error_outcome prefix_restriction).
Proof.
  apply query_without_space_rejected.
  - apply is_ascii_check. vm_compute. reflexivity.
  - vm_compute. intros H.
    repeat (destruct H as [H|H]; [discriminate H|]). exact H.
Defined.

Lemma engine_failure_ends_submission_witness :
  hd_error (trace (snd throttled_run))
  = Some (GetQueryResults (lit "q-1") None
            (Raise (lit "ThrottlingException: Rate exceeded")))
  /\ fst throttled_run
     = error_outcome (lit "ThrottlingException: Rate exceeded").
Proof.
  unfold throttled_run.
  apply engine_failure_ends_submission; [|reflexivity].
  vm_compute. left. reflexivity.
Defined.

(** FAILED with a reason and without a result configuration: the output is
    the error, and the reason is nowhere in it. *)
Lemma error_message_iff_failed_with_reason_witness :
  fst unconfigured_fetch = error_outcome (lit "'ResultConfiguration'")
  /\ dict_get (fst unconfigured_fetch) (lit "ErrorMessage") = None.
Proof.
  assert (Hout : fst unconfigured_fetch
                 = error_outcome (lit "'ResultConfiguration'")).
  { unfold unconfigured_fetch.
    destruct (reports_unconfigured (lit "FAILED") (Some syntax_error))
      as [r|m] eqn:Hr; [|discriminate].
    destruct (error_message_iff_failed_with_reason unconfigured_engine
                (lit "q-1") 1000 0 (PStr syntax_error)) as [_ Herr].
    vm_compute in Hr. injection Hr as <-.
    apply (Herr _ ltac:(vm_compute; left; reflexivity) eq_refl eq_refl). }
  split; [exact Hout|]. rewrite Hout. reflexivity.
Defined.

Lemma row_of_distinct_columns_witness :
  build_row id_name_columns one_then_null
  = Ok [(lit "id", lit "1"); (lit "name", [])].
Proof.
  rewrite (row_of_distinct_columns id_name_columns one_then_null
             [cell "1"; null_cell]); [reflexivity| |reflexivity].
  simpl. repeat constructor; simpl; intros H;
    repeat (destruct H as [H|H]; [discriminate H|]); exact H.
Defined.

Lemma row_shape_witness :
  build_row same_name_columns null_then_seven = Ok [(lit "id", lit "7")]
  /\ length [(lit "id", lit "7")] <= length same_name_columns
  /\ incl [lit "id"] (map col_Name same_name_columns).
Proof.
  assert (Hrow : build_row same_name_columns null_then_seven
                 = Ok [(lit "id", lit "7")]) by (vm_compute; reflexivity).
  split; [exact Hrow|].
  destruct (row_shape same_name_columns null_then_seven _ Hrow)
    as (_ & Hincl & Hlen & _).
  split; [exact Hlen | exact Hincl].
Defined.

Lemma fetched_rows_consistent_witness :
  dict_get (fst ready_fetch) (lit "RowCount") = Some (PInt 2).
Proof.
  unfold ready_fetch.
  destruct (fetched_rows_consistent succeeding_engine (lit "q-1") 1000 2
              (PList (map row_value
                        (map (zipped (process_columns two_rows))
                             (tl (raw_rows two_rows))))))
    as (column_info & rows & _ & Hrows & Hcount & _);
    [vm_compute; reflexivity|].
  rewrite Hcount. injection Hrows as Hrows.
  apply (f_equal (@length pyval)) in Hrows. rewrite length_map in Hrows.
  rewrite <- Hrows. reflexivity.
Defined.

Lemma missing_required_argument_witness :
  handle_call_tool succeeding_engine the_querier blank_dumps
    (lit "aws_athena_query") None (fresh 0)
  = (text_reply (lit "Error: Missing query_string argument"), fresh 0).
Proof.
  apply (missing_required_argument succeeding_engine the_querier blank_dumps
           query_tool
           (lit "query_string") None (fresh 0)).
  - left. reflexivity.
  - left. reflexivity.
  - intros a Ha. discriminate Ha.
Defined.

Lemma unlisted_tool_unknown_witness :
  handle_call_tool succeeding_engine the_querier blank_dumps
    (lit "aws_resources_query_or_modify") None (fresh 0)
  = (text_reply (lit "Error: Unknown tool: aws_resources_query_or_modify"),
     fresh 0).
Proof.
  apply (unlisted_tool_unknown succeeding_engine the_querier blank_dumps
           (lit "aws_resources_query_or_modify") None (fresh 0)).
  simpl. intros [H|[H|[]]]; vm_compute in H; discriminate H.
Defined.

Lemma listed_tool_runs_witness :
  handle_call_tool succeeding_engine the_querier keys_dumps
    (lit "aws_athena_query") (Some (only_query (lit "SELECT 1"))) (fresh 0)
  = (text_reply (lit "QueryExecutionId,OutputLocation,"),
     {| engine_state := 0;
        trace := started (lit "SELECT 1") (lit "primary")
                   (lit "s3://results/") (lit "q-1") |}).
Proof.
  destruct (listed_tool_runs succeeding_engine the_querier keys_dumps
              query_tool (only_query (lit "SELECT 1")) (fresh 0))
    as (run & Hreply & [(_ & q & Hq & Hrun) | (Hname & _)]).
  - left. reflexivity.
  - intros key [<- | []]. reflexivity.
  - change (tool_name query_tool) with (lit "aws_athena_query") in Hreply.
    rewrite Hreply, Hrun. injection Hq as <-. vm_compute. reflexivity.
  - vm_compute in Hname. discriminate Hname.
Defined.

Lemma omitted_argument_takes_schema_default_witness :
  trace (snd (handle_call_tool succeeding_engine the_querier blank_dumps
                (lit "aws_athena_query") (Some (only_query (lit "SELECT 1")))
                (fresh 0)))
  = started (lit "SELECT 1") (lit "primary") (lit "s3://results/") (lit "q-1").
Proof.
  rewrite (omitted_argument_takes_schema_default succeeding_engine the_querier
             blank_dumps
             query_tool
             (lit "wait_for_completion") (JBool false)
             (only_query (lit "SELECT 1")) (fresh 0)).
  - vm_compute. reflexivity.
  - left. reflexivity.
  - vm_compute. reflexivity.
  - reflexivity.
Defined.

Lemma rejected_query_through_tool_witness :
  handle_call_tool succeeding_engine the_querier blank_dumps
    (lit "aws_athena_query") (Some (only_query drop_table)) (fresh 0)
  = (text_reply (blank_dumps (error_outcome prefix_restriction)), fresh 0).
Proof.
  apply (rejected_query_through_tool succeeding_engine the_querier blank_dumps
           (only_query drop_table) drop_table).
  - reflexivity.
  - vm_compute. reflexivity.
Defined.
